(** * filter_smiles: the SMILES cleaning script of REINVENT4

    A shallow embedding of [configs/filter_smiles.py] and the properties of its
    tokenizer, validator, file processor and reporter.

    Conventions of the embedding.
    - A Python [str] is a [string]; a character is a code point below 256
      (ASCII and the Latin-1 supplement), which covers every token of the
      allowed vocabulary.
    - A Python [int] is a [Z]; [str.find] returns [-1] when nothing is found.
    - A Python [set] of strings is a [gset string].
    - The [while] loop of the tokenizer is run with fuel: the outcome
      [Timeout] means that the fuel ran out before the loop condition failed.
    - RDKit ([Chem.MolFromSmiles], [Chem.MolToSmiles]) is a parameter of the
      development. *)

From Stdlib Require Import ZArith QArith Qround String Ascii List Lia Bool DecimalString Sorted.
From stdpp Require Import gmap strings list.
Import ListNotations.

#[local] Set Warnings "-clear-no-such-hyp".
#[local] Open Scope string_scope.
#[local] Open Scope Z_scope.

(** ** Python strings *)

Module PyStr.

Definition len (s : string) : Z := Z.of_nat (String.length s).

Definition code (c : ascii) : N := N_of_ascii c.

(** [str.isdigit] on one character: the ASCII digits and the superscript
    digits U+00B2, U+00B3 and U+00B9. *)
Definition char_isdigit (c : ascii) : bool :=
  let n := code c in
  ((48 <=? n) && (n <=? 57) || (n =? 178) || (n =? 179) || (n =? 185))%N.

(** [str.isspace] on one character: U+0009..U+000D, U+001C..U+0020, U+0085
    and U+00A0. *)
Definition char_isspace (c : ascii) : bool :=
  let n := code c in
  ((9 <=? n) && (n <=? 13) || (28 <=? n) && (n <=? 32) || (n =? 133) || (n =? 160))%N.

Fixpoint all_chars (p : ascii -> bool) (s : string) : bool :=
  match s with
  | EmptyString => true
  | String c r => p c && all_chars p r
  end.

(** [s.isdigit()]: every character is a digit and there is at least one. *)
Definition isdigit (s : string) : bool :=
  match s with
  | EmptyString => false
  | _ => all_chars char_isdigit s
  end.

Fixpoint drop (n : nat) (s : string) : string :=
  match n, s with
  | O, _ => s
  | S n', EmptyString => EmptyString
  | S n', String _ r => drop n' r
  end.

Fixpoint take (n : nat) (s : string) : string :=
  match n, s with
  | O, _ => EmptyString
  | S n', EmptyString => EmptyString
  | S n', String c r => String c (take n' r)
  end.

(** A slice bound, as Python normalises it: a negative bound counts from the
    end, and the result is clamped to [0, len]. *)
Definition bound (n k : Z) : Z :=
  if k <? 0 then Z.max 0 (k + n) else Z.min k n.

(** [s[i:j]] *)
Definition slice (s : string) (i j : Z) : string :=
  let lo := bound (len s) i in
  let hi := bound (len s) j in
  take (Z.to_nat (hi - lo)) (drop (Z.to_nat lo) s).

(** [s[i]]; [None] stands for the [IndexError] of an index out of range. *)
Definition index (s : string) (i : Z) : option ascii :=
  let j := if i <? 0 then i + len s else i in
  if (0 <=? j) && (j <? len s) then String.get (Z.to_nat j) s else None.

(** Position of the first [c] in [s], if any. *)
Fixpoint first_pos (c : ascii) (s : string) : option nat :=
  match s with
  | EmptyString => None
  | String d r =>
      if Ascii.eqb d c then Some O
      else match first_pos c r with
           | Some k => Some (S k)
           | None => None
           end
  end.

(** [s.find(c, start)] for a one-character needle [c] and [start >= 0]. *)
Definition find (s : string) (c : ascii) (start : Z) : Z :=
  let st := bound (len s) start in
  match first_pos c (drop (Z.to_nat st) s) with
  | Some k => st + Z.of_nat k
  | None => -1
  end.

(** [s.startswith(c)] for a one-character prefix. *)
Definition startswith (s : string) (c : ascii) : bool :=
  match s with
  | String d _ => Ascii.eqb d c
  | EmptyString => false
  end.

Fixpoint lstrip (s : string) : string :=
  match s with
  | String c r => if char_isspace c then lstrip r else s
  | EmptyString => EmptyString
  end.

Fixpoint rstrip (s : string) : string :=
  match s with
  | EmptyString => EmptyString
  | String c r =>
      match rstrip r with
      | EmptyString => if char_isspace c then EmptyString else String c EmptyString
      | r' => String c r'
      end
  end.

(** [s.strip()] *)
Definition strip (s : string) : string := rstrip (lstrip s).

(** The longest prefix without white space, and what follows it. *)
Fixpoint word (s : string) : string * string :=
  match s with
  | EmptyString => (EmptyString, EmptyString)
  | String c r =>
      if char_isspace c then (EmptyString, s)
      else let '(w, rest) := word r in (String c w, rest)
  end.

(** [s.split(None, 1)] *)
Definition split1 (s : string) : list string :=
  match lstrip s with
  | EmptyString => []
  | s' =>
      let '(w, rest) := word s' in
      match lstrip rest with
      | EmptyString => [w]
      | rest' => [w; rest']
      end
  end.

End PyStr.

(** ** Outcomes of a computation *)

(** A Python exception: its class name and its message [str(e)]. *)
Record exn := Exn { exn_class : string; exn_msg : string }.

Definition ZeroDivisionError : exn := Exn "ZeroDivisionError" "division by zero".
Definition IndexError (msg : string) : exn := Exn "IndexError" msg.

Inductive outcome (A : Type) : Type :=
| Done (a : A)
| Raised (e : exn)
| Timeout.
Arguments Done {A} a.
Arguments Raised {A} e.
Arguments Timeout {A}.

Definition bind {A B} (m : outcome A) (k : A -> outcome B) : outcome B :=
  match m with
  | Done a => k a
  | Raised e => Raised e
  | Timeout => Timeout
  end.

Notation "'let*' x ':=' m 'in' k" := (bind m (fun x => k))
  (at level 10, x pattern, m at level 100, k at level 200).

(** ** The allowed vocabulary *)

Definition allowed_list : list string :=
  [ "o"; "$"; "9"; "[N-]"; "Cl"; "[O-]"; "5"; "-"; "s"; "6"; "="; "7"; "O"; "4";
    ")"; "c"; "#"; "[n+]"; "[nH]"; "n"; "%10"; "1"; "N"; "^"; "[S+]"; "8"; "F";
    "[N+]"; "C"; "("; "3"; "2"; "Br"; "S" ].

Definition get_allowed_tokens : gset string := list_to_set allowed_list.

(** ** The tokenizer *)

(** One iteration of the [while] loop of [tokenize_smiles], entered with
    [i < len(smiles)]: the index it moves to and the token it adds. *)
Definition tokenize_step (smiles : string) (i : Z) : outcome (Z * string) :=
  match PyStr.index smiles i with
  | None => Raised (IndexError "string index out of range")
  | Some c =>
      if Ascii.eqb c "[" then
        let end_ := PyStr.find smiles "]" i + 1 in
        Done (end_, PyStr.slice smiles i end_)
      else if Ascii.eqb c "%" then
        if (i + 2 <? PyStr.len smiles)
           && PyStr.isdigit (PyStr.slice smiles (i + 1) (i + 3))
        then Done (i + 3, PyStr.slice smiles i (i + 3))
        else Done (i + 1, String c EmptyString)
      else Done (i + 1, String c EmptyString)
  end.

Fixpoint tokenize_loop (fuel : nat) (smiles : string) (i : Z) (tokens : gset string)
  : outcome (gset string) :=
  match fuel with
  | O => Timeout
  | S fuel' =>
      if i <? PyStr.len smiles then
        let* (i', token) := tokenize_step smiles i in
        tokenize_loop fuel' smiles i' (tokens ∪ {[ token ]})
      else Done tokens
  end.

Definition tokenize_smiles (fuel : nat) (smiles : string) : outcome (gset string) :=
  tokenize_loop fuel smiles 0 ∅.

(** ** Rendering values as text *)

Module PyFmt.

Definition LF : ascii := ascii_of_N 10.
Definition CR : ascii := ascii_of_N 13.
Definition TAB : ascii := ascii_of_N 9.
Definition QUOTE : ascii := ascii_of_N 39.
Definition DQUOTE : ascii := ascii_of_N 34.
Definition BACKSLASH : ascii := ascii_of_N 92.

Definition str1 (c : ascii) : string := String c EmptyString.

(** [str(n)] for an [int]. *)
Definition str_int (n : Z) : string := NilZero.string_of_int (Z.to_int n).

Fixpoint spaces (n : nat) : string :=
  match n with
  | O => EmptyString
  | S n' => String " " (spaces n')
  end.

(** [f"{n:5d}"]: right-aligned in a field of five characters. *)
Definition fmt_5d (n : Z) : string :=
  let s := str_int n in
  spaces (5 - String.length s) ++ s.

Definition hex_digit (n : N) : ascii :=
  match String.get (N.to_nat n) "0123456789abcdef" with
  | Some c => c
  | None => "0"%char
  end.

(** [str.isprintable] on one character. *)
Definition char_isprintable (c : ascii) : bool :=
  let n := PyStr.code c in
  ((32 <=? n) && (n <=? 126) || (161 <=? n) && negb (n =? 173))%N.

Fixpoint has_char (c : ascii) (s : string) : bool :=
  match s with
  | EmptyString => false
  | String d r => Ascii.eqb d c || has_char c r
  end.

(** One character inside [repr(s)], with [q] the enclosing quote. *)
Definition repr_char (q c : ascii) : string :=
  if Ascii.eqb c BACKSLASH then String BACKSLASH (str1 BACKSLASH)
  else if Ascii.eqb c q then String BACKSLASH (str1 q)
  else if Ascii.eqb c TAB then String BACKSLASH "t"
  else if Ascii.eqb c LF then String BACKSLASH "n"
  else if Ascii.eqb c CR then String BACKSLASH "r"
  else if char_isprintable c then str1 c
  else
    let n := PyStr.code c in
    String BACKSLASH (String "x" (String (hex_digit (n / 16)) (str1 (hex_digit (n mod 16))))).

Fixpoint repr_body (q : ascii) (s : string) : string :=
  match s with
  | EmptyString => EmptyString
  | String c r => repr_char q c ++ repr_body q r
  end.

(** [repr(s)] for a [str]: single quotes, unless the text has a single quote
    and no double quote. *)
Definition repr (s : string) : string :=
  let q := if has_char QUOTE s && negb (has_char DQUOTE s) then DQUOTE else QUOTE in
  String q (repr_body q s ++ str1 q).

Fixpoint join (sep : string) (l : list string) : string :=
  match l with
  | [] => EmptyString
  | [x] => x
  | x :: r => x ++ sep ++ join sep r
  end.

End PyFmt.

(** ** The environment of the script *)

(** RDKit as the script uses it. [MolFromSmiles] returns [None] for text that
    it cannot parse; either call may raise. *)
Class Chem := {
  Mol : Type;
  MolFromSmiles : string -> outcome (option Mol);
  MolToSmiles : Mol -> outcome string;
}.

(** What the interpreter fixes and the script does not: the order in which a
    set is iterated (it depends on the hashes of its members), and the
    rendering [f"{x:.1f}"] of the binary floating-point number nearest to a
    rational [x]. *)
Class Runtime := {
  set_iter : gset string -> list string;
  set_iter_perm : forall X : gset string, set_iter X ≡ₚ elements X;
  format_1f : Q -> string;
}.

(** [str(X)] for a set of strings. *)
Definition set_str `{Runtime} (X : gset string) : string :=
  match set_iter X with
  | [] => "set()"
  | l => "{" ++ PyFmt.join ", " (map PyFmt.repr l) ++ "}"
  end.

(** ** The validator *)

Definition try_except {A} (body : outcome A) (handler : exn -> outcome A) : outcome A :=
  match body with
  | Raised e => handler e
  | r => r
  end.

Definition is_valid_smiles `{Chem} `{Runtime}
  (fuel : nat) (smiles : string) (allowed_tokens : gset string)
  : outcome (bool * string) :=
  try_except
    (let* mol := MolFromSmiles smiles in
     match mol with
     | None => Done (false, "Invalid RDKit molecule")
     | Some mol =>
         let* canonical_smiles := MolToSmiles mol in
         let* smiles_tokens := tokenize_smiles fuel canonical_smiles in
         let unsupported_tokens := smiles_tokens ∖ allowed_tokens in
         if negb (bool_decide (unsupported_tokens = ∅)) then
           Done (false, "Unsupported tokens: " ++ set_str unsupported_tokens)
         else Done (true, canonical_smiles)
     end)
    (fun e => Done (false, "Error: " ++ exn_msg e)).

(** ** The file processor *)

(** An insertion-ordered [dict] from reasons to counts. *)
Fixpoint dict_get (d : list (string * Z)) (k : string) (default : Z) : Z :=
  match d with
  | [] => default
  | (k', v) :: r => if String.eqb k' k then v else dict_get r k default
  end.

Fixpoint dict_set (d : list (string * Z)) (k : string) (v : Z) : list (string * Z) :=
  match d with
  | [] => [(k, v)]
  | (k', v') :: r => if String.eqb k' k then (k', v) :: r else (k', v') :: dict_set r k v
  end.

(** The variables of [clean_smiles_file] while it reads, with what it has
    written to the output file and printed so far. *)
Record world := {
  outfile : list string;
  valid_count : Z;
  invalid_count : Z;
  invalid_reasons : list (string * Z);
  console : list string;
}.

Definition print (text : string) (w : world) : world :=
  {| outfile := outfile w; valid_count := valid_count w;
     invalid_count := invalid_count w; invalid_reasons := invalid_reasons w;
     console := console w ++ [text] |}.

Definition accept (record : string) (w : world) : world :=
  {| outfile := outfile w ++ [record]; valid_count := valid_count w + 1;
     invalid_count := invalid_count w; invalid_reasons := invalid_reasons w;
     console := console w |}.

Definition reject (reason : string) (w : world) : world :=
  {| outfile := outfile w; valid_count := valid_count w;
     invalid_count := invalid_count w + 1;
     invalid_reasons :=
       dict_set (invalid_reasons w) reason (dict_get (invalid_reasons w) reason 0 + 1);
     console := console w |}.

(** The test of line 78: the stripped line is empty or starts with [#]. *)
Definition skipped (line : string) : bool :=
  let line := PyStr.strip line in
  match line with
  | EmptyString => true
  | _ => PyStr.startswith line "#"
  end.

Definition progress_notice (line_num : Z) : string :=
  "Processed " ++ PyFmt.str_int line_num ++ " molecules...".

Definition output_record (result name : string) : string :=
  result ++ PyFmt.str1 PyFmt.TAB ++ name ++ PyFmt.str1 PyFmt.LF.

(** The body of the [for] loop. *)
Definition process_line `{Chem} `{Runtime}
  (fuel : nat) (allowed_tokens : gset string) (line_num : Z) (line : string) (w : world)
  : outcome world :=
  if skipped line then Done w
  else
    match PyStr.split1 (PyStr.strip line) with
    | [] => Raised (IndexError "list index out of range")
    | smiles :: rest =>
        let name :=
          match rest with
          | name :: _ => name
          | [] => "mol_" ++ PyFmt.str_int line_num
          end in
        let* (is_valid, result) := is_valid_smiles fuel smiles allowed_tokens in
        let w1 := if is_valid : bool then accept (output_record result name) w
                  else reject result w in
        Done (if line_num mod 1000 =? 0 then print (progress_notice line_num) w1 else w1)
    end.

Fixpoint process_lines `{Chem} `{Runtime}
  (fuel : nat) (allowed_tokens : gset string) (lines : list string) (line_num : Z) (w : world)
  : world * outcome unit :=
  match lines with
  | [] => (w, Done tt)
  | line :: rest =>
      match process_line fuel allowed_tokens line_num line w with
      | Done w' => process_lines fuel allowed_tokens rest (line_num + 1) w'
      | Raised e => (w, Raised e)
      | Timeout => (w, Timeout)
      end
  end.

(** The lines of a text file opened in text mode: each of [\n], [\r\n] and
    [\r] ends a line and is read as [\n]. *)
Fixpoint readlines (s : string) : list string :=
  match s with
  | EmptyString => []
  | String c r =>
      if Ascii.eqb c PyFmt.LF then PyFmt.str1 PyFmt.LF :: readlines r
      else if Ascii.eqb c PyFmt.CR then
        match r with
        | String d r' =>
            if Ascii.eqb d PyFmt.LF then PyFmt.str1 PyFmt.LF :: readlines r'
            else PyFmt.str1 PyFmt.LF :: readlines r
        | EmptyString => [PyFmt.str1 PyFmt.LF]
        end
      else
        match readlines r with
        | [] => [PyFmt.str1 c]
        | l :: ls => String c l :: ls
        end
  end.

(** ** The reporter *)

(** [valid_count/(valid_count + invalid_count)*100] *)
Definition success_rate (valid invalid : Z) : outcome Q :=
  if valid + invalid =? 0 then Raised ZeroDivisionError
  else Done (inject_Z valid / inject_Z (valid + invalid) * 100)%Q.

Fixpoint insert_by_count (x : string * Z) (l : list (string * Z)) : list (string * Z) :=
  match l with
  | [] => [x]
  | y :: r => if snd y >? snd x then y :: insert_by_count x r else x :: y :: r
  end.

(** [sorted(d.items(), key=lambda x: x[1], reverse=True)]: by decreasing
    count, ties in the order of the dictionary. *)
Definition sorted_by_count (d : list (string * Z)) : list (string * Z) :=
  fold_right insert_by_count [] d.

Definition reason_line (x : string * Z) : string :=
  "  " ++ PyFmt.fmt_5d (snd x) ++ " - " ++ fst x.

Definition NL : string := PyFmt.str1 PyFmt.LF.

(** Lines 100 to 109: the summary printed on the console. *)
Definition print_summary `{Runtime} (w : world) : world * outcome unit :=
  let w := print (NL ++ "=== CLEANING REPORT ===") w in
  let w := print ("Total processed: " ++ PyFmt.str_int (valid_count w + invalid_count w)) w in
  let w := print ("Valid molecules: " ++ PyFmt.str_int (valid_count w)) w in
  let w := print ("Invalid molecules: " ++ PyFmt.str_int (invalid_count w)) w in
  match success_rate (valid_count w) (invalid_count w) with
  | Done rate =>
      let w := print ("Success rate: " ++ format_1f rate ++ "%") w in
      match invalid_reasons w with
      | [] => (w, Done tt)
      | d =>
          let w := print (NL ++ "Invalid molecule reasons:") w in
          (fold_left (fun w x => print (reason_line x) w) (sorted_by_count d) w, Done tt)
      end
  | Raised e => (w, Raised e)
  | Timeout => (w, Timeout)
  end.

Fixpoint repeat_str (s : string) (n : nat) : string :=
  match n with
  | O => EmptyString
  | S n' => s ++ repeat_str s n'
  end.

(** Lines 113 to 126: what is written to the report file. *)
Definition write_report `{Runtime} (input_file output_file : string) (w : world)
  : list string * outcome unit :=
  let f :=
    [ "SMILES Cleaning Report" ++ NL;
      repeat_str "=" 50 ++ NL ++ NL;
      "Input file: " ++ input_file ++ NL;
      "Output file: " ++ output_file ++ NL;
      "Total processed: " ++ PyFmt.str_int (valid_count w + invalid_count w) ++ NL;
      "Valid molecules: " ++ PyFmt.str_int (valid_count w) ++ NL;
      "Invalid molecules: " ++ PyFmt.str_int (invalid_count w) ++ NL ] in
  match success_rate (valid_count w) (invalid_count w) with
  | Done rate =>
      let f := app f [ "Success rate: " ++ format_1f rate ++ "%" ++ NL ++ NL ] in
      match invalid_reasons w with
      | [] => (f, Done tt)
      | d =>
          (app f (("Invalid molecule breakdown:" ++ NL)
                  :: map (fun x => reason_line x ++ NL) (sorted_by_count d)), Done tt)
      end
  | Raised e => (f, Raised e)
  | Timeout => (f, Timeout)
  end.

(** ** The run *)

(** What one call of [clean_smiles_file] leaves behind: the variables and
    the two streams, the writes to the report file if it was opened, and how
    the call ended. *)
Record run := {
  final : world;
  report : option (list string);
  status : outcome unit;
}.

Definition initial_world : world :=
  {| outfile := []; valid_count := 0; invalid_count := 0;
     invalid_reasons := []; console := [] |}.

(** The truth value of the [report_file] argument. *)
Definition truthy (report_file : option string) : bool :=
  match report_file with
  | None | Some EmptyString => false
  | Some _ => true
  end.

(** [clean_smiles_file], with [content] the text of [input_file]. *)
Definition clean_smiles_file `{Chem} `{Runtime}
  (fuel : nat) (input_file output_file : string) (report_file : option string)
  (content : string) : run :=
  let allowed_tokens := get_allowed_tokens in
  let '(w, st) := process_lines fuel allowed_tokens (readlines content) 1 initial_world in
  match st with
  | Done _ =>
      let '(w, st) := print_summary w in
      match st with
      | Done _ =>
          if truthy report_file then
            let '(f, st) := write_report input_file output_file w in
            {| final := w; report := Some f; status := st |}
          else {| final := w; report := None; status := Done tt |}
      | _ => {| final := w; report := None; status := st |}
      end
  | _ => {| final := w; report := None; status := st |}
  end.

(** The text of the output file after a run. *)
Definition output_text (r : run) : string :=
  fold_right String.append "" (outfile (final r)).

(** ** The command line *)





(** * Vocabulary of the properties *)

(** A character that is not white space. *)
Definition nonspace (c : ascii) : bool := negb (PyStr.char_isspace c).

(** A character that does not end a line. *)
Definition inline (c : ascii) : bool :=
  negb (Ascii.eqb c PyFmt.LF) && negb (Ascii.eqb c PyFmt.CR).

Definition starts_nonspace (s : string) : bool :=
  match s with
  | EmptyString => false
  | String c _ => nonspace c
  end.

(** The first character of the text that is not white space. *)
Fixpoint first_nonspace (s : string) : option ascii :=
  match s with
  | EmptyString => None
  | String c r => if PyStr.char_isspace c then first_nonspace r else Some c
  end.

(** [t] occurs in [r]. *)
Definition contains (t r : string) : Prop := exists a b, r = a ++ t ++ b.

(** A character that [repr] copies as it is between single quotes. *)
Definition plain (c : ascii) : bool :=
  PyFmt.char_isprintable c
  && negb (Ascii.eqb c PyFmt.QUOTE) && negb (Ascii.eqb c PyFmt.BACKSLASH).

(** A line as the spec describes the skipped ones: empty once stripped, or
    with [#] as its first character that is not white space. *)
Definition blank_or_comment (line : string) : Prop :=
  PyStr.strip line = "" \/ first_nonspace line = Some "#"%char.


(** The sum of the counts of the tally. *)
Definition tally_total (d : list (string * Z)) : Z :=
  fold_right (fun x acc => snd x + acc) 0 d.

(** The counters agree with what was written and tallied. *)
Definition consistent (w : world) : Prop :=
  Z.of_nat (length (outfile w)) = valid_count w
  /\ tally_total (invalid_reasons w) = invalid_count w.

(** One record moves exactly one of the two counters, with the output file
    or the tally. *)
Definition counted_once (w w' : world) : Prop :=
  (valid_count w' = valid_count w + 1
   /\ invalid_count w' = invalid_count w
   /\ length (outfile w') = S (length (outfile w))
   /\ tally_total (invalid_reasons w') = tally_total (invalid_reasons w))
  \/ (valid_count w' = valid_count w
      /\ invalid_count w' = invalid_count w + 1
      /\ outfile w' = outfile w
      /\ tally_total (invalid_reasons w') = tally_total (invalid_reasons w) + 1).

(** Printing changes the console only. *)
Definition same_data (w w' : world) : Prop :=
  outfile w' = outfile w /\ valid_count w' = valid_count w
  /\ invalid_count w' = invalid_count w /\ invalid_reasons w' = invalid_reasons w.

(** A line as the file iterator gives it: no carriage return, and a line
    feed only as its last character. *)
Definition line_ok (l : string) : Prop :=
  exists body, PyStr.all_chars inline body = true /\ (l = body \/ l = body ++ NL).

(** A name as the file processor writes it: it starts and ends with a
    character that is not white space and has no line break. *)
Definition good_name (name : string) : Prop :=
  starts_nonspace name = true
  /\ PyStr.rstrip name = name
  /\ PyStr.all_chars inline name = true.

(** A record that is one line of the output file. *)
Definition one_line (r : string) : Prop :=
  exists body, r = body ++ NL /\ PyStr.all_chars inline body = true.

(** Parsing a canonical text and making it canonical again returns it. *)
Definition canonical_idempotent `{Chem} : Prop :=
  forall (s : string) (m : Mol) (c : string),
    MolFromSmiles s = Done (Some m) -> MolToSmiles m = Done c ->
    exists m', MolFromSmiles c = Done (Some m') /\ MolToSmiles m' = Done c.

(** The canonical text of a molecule parsed from a non-empty text is not
    empty and does not start with [#]. *)
Definition canonical_wellformed `{Chem} : Prop :=
  forall (s : string) (m : Mol) (c : string),
    s <> "" -> MolFromSmiles s = Done (Some m) -> MolToSmiles m = Done c ->
    c <> "" /\ PyStr.startswith c "#" = false.

(** A line of the form canonical SMILES, tab, name, that passes the filter. *)
Definition own_record `{Chem} (fuel : nat) (r : string) : Prop :=
  exists c name : string,
    r = output_record c name
    /\ c <> "" /\ PyStr.startswith c "#" = false
    /\ (exists (m : Mol) (T : gset string),
          MolFromSmiles c = Done (Some m) /\ MolToSmiles m = Done c
          /\ tokenize_smiles fuel c = Done T /\ T ⊆ get_allowed_tokens)
    /\ good_name name.

(** Position [i] holds an opening bracket that no closing bracket follows. *)
Definition unclosed_at (s : string) (i : Z) : bool :=
  match PyStr.index s i with
  | Some c => Ascii.eqb c "[" && (PyStr.find s "]" i =? -1)
  | None => false
  end.

(** Every opening bracket of the text is followed by a closing one. *)
Definition closed_brackets (s : string) : bool :=
  forallb (fun k => negb (unclosed_at s (Z.of_nat k))) (seq 0 (String.length s)).

(** The three kinds of token: a bracket group that ends at its first closing
    bracket, a percent sign with two digits, one character. *)
Definition bracket_token (t : string) : Prop :=
  exists body, t = String "[" (body ++ "]") /\ PyFmt.has_char "]" body = false.

Definition ring_token (t : string) : Prop :=
  exists d1 d2, t = String "%" (String d1 (String d2 EmptyString))
                /\ PyStr.char_isdigit d1 = true /\ PyStr.char_isdigit d2 = true.

Definition char_token (t : string) : Prop :=
  exists c, t = String c EmptyString /\ c <> "["%char.

Definition token_shape (t : string) : Prop :=
  bracket_token t \/ ring_token t \/ char_token t.

(** A record of the output file that comes from a text that parses, with
    its canonical text, whose tokens are all allowed, and a name. *)
Definition filtered_record `{Chem} (fuel : nat) (r : string) : Prop :=
  exists (smiles : string) (mol : Mol) (c name : string) (T : gset string),
    r = output_record c name
    /\ MolFromSmiles smiles = Done (Some mol) /\ MolToSmiles mol = Done c
    /\ tokenize_smiles fuel c = Done T /\ T ⊆ get_allowed_tokens
    /\ PyStr.all_chars nonspace c = true
    /\ good_name name.

(** The tally as a dictionary: no reason twice, every count at least 1. *)
Definition tally_ok (d : list (string * Z)) : Prop :=
  NoDup (map fst d) /\ Forall (fun x => 1 <= snd x) d.

(** ** A small environment to run the script in *)

(** A stand-in for RDKit: text with an underscore or a space, or that starts
    with the bond symbol [#], does not parse, and the canonical form of any
    other text is the text itself. *)
Definition toy_parse (s : string) : outcome (option string) :=
  if PyFmt.has_char "_" s || PyFmt.has_char " " s || PyStr.startswith s "#"
  then Done None else Done (Some s).

Definition toy_chem : Chem :=
  {| Mol := string; MolFromSmiles := toy_parse; MolToSmiles := fun m => Done m |}.

(** A stand-in that raises: parsing raises on a text with an exclamation
    mark, writing raises on a molecule with a question mark. *)
Definition moody_chem : Chem :=
  {| Mol := string;
     MolFromSmiles := fun s =>
       if PyFmt.has_char "!" s then Raised (Exn "RuntimeError" "Pre-condition Violation")
       else Done (Some s);
     MolToSmiles := fun m =>
       if PyFmt.has_char "?" m then Raised (Exn "ValueError" "cannot write")
       else Done m |}.

(** One decimal, rounded half up. *)
Definition toy_format_1f (x : Q) : string :=
  let t := Qfloor (x * 10 + (1 # 2))%Q in
  PyFmt.str_int (t / 10) ++ "." ++ PyFmt.str_int (t mod 10).

Lemma elements_perm_refl (X : gset string) : elements X ≡ₚ elements X.
Proof. reflexivity. Defined.

Definition toy_runtime : Runtime :=
  {| set_iter := elements; set_iter_perm := elements_perm_refl;
     format_1f := toy_format_1f |}.

(** * Properties *)

(** ** The outcome monad and fuel *)

Lemma tokenize_loop_fuel (k fuel : nat) (s : string) (i : Z) (T R : gset string) :
  tokenize_loop fuel s i T = Done R ->
  tokenize_loop (fuel + k) s i T = Done R.
Proof.
  revert i T. induction fuel as [|fuel IH]; intros i T; simpl; [discriminate|].
  destruct (i <? PyStr.len s); [|trivial].
  destruct (tokenize_step s i) as [[i' tok]| |]; simpl; [apply IH|discriminate..].
Qed.

Lemma tokenize_smiles_fuel (k fuel : nat) (s : string) (R : gset string) :
  tokenize_smiles fuel s = Done R -> tokenize_smiles (fuel + k) s = Done R.
Proof. apply tokenize_loop_fuel. Qed.

(** C5: the tokenizer maps c1ccccc1 to the set of c and 1, the bracket atom
    [nH] to the set of that one token, and %10CC to the set of %10 and C; this
    holds with any fuel from the length of the text plus one. *)
Theorem tokenize_examples (k : nat) :
  tokenize_smiles (9 + k) "c1ccccc1" = Done {[ "c"; "1" ]}
  /\ tokenize_smiles (2 + k) "[nH]" = Done {[ "[nH]" ]}
  /\ tokenize_smiles (4 + k) "%10CC" = Done {[ "%10"; "C" ]}.
Proof.
  repeat split; apply tokenize_smiles_fuel; vm_compute; reflexivity.
Qed.

(** ** Python strings: indexing, slicing and searching *)

Module PyStrFacts.
Import PyStr.

Lemma len_nonneg (s : string) : 0 <= len s.
Proof. unfold len. lia. Qed.


Lemma bound_pos (n k : Z) : 0 <= k -> bound n k = Z.min k n.
Proof. intros Hk. unfold bound. destruct (k <? 0) eqn:E; [lia|reflexivity]. Qed.

Lemma get_lt (s : string) (k : nat) (c : ascii) :
  String.get k s = Some c -> (k < String.length s)%nat.
Proof.
  revert k. induction s as [|d s IH]; intros [|k]; simpl; try discriminate; try lia.
  intros H. apply IH in H. lia.
Qed.

Lemma get_some (s : string) (k : nat) :
  (k < String.length s)%nat -> exists c, String.get k s = Some c.
Proof.
  revert k. induction s as [|d s IH]; intros [|k]; simpl; try lia; eauto.
  intros H. apply IH. lia.
Qed.

Lemma get_drop (s : string) (n k : nat) :
  String.get k (drop n s) = String.get (n + k) s.
Proof.
  revert s. induction n as [|n IH]; intros [|d s]; simpl; trivial.
Qed.

Lemma length_drop (s : string) (n : nat) :
  String.length (drop n s) = (String.length s - n)%nat.
Proof. revert s. induction n as [|n IH]; intros [|d s]; simpl; auto; lia. Qed.

Lemma index_get (s : string) (i : Z) :
  0 <= i -> index s i = if i <? len s then String.get (Z.to_nat i) s else None.
Proof.
  intros Hi. unfold index.
  destruct (i <? 0) eqn:E; [lia|].
  destruct (0 <=? i) eqn:E0; [|lia]. reflexivity.
Qed.

Lemma index_lt (s : string) (i : Z) (c : ascii) :
  0 <= i -> index s i = Some c -> i < len s.
Proof.
  intros Hi. rewrite index_get by trivial.
  destruct (i <? len s) eqn:E; [lia|discriminate].
Qed.

Lemma index_some (s : string) (i : Z) :
  0 <= i < len s -> exists c, index s i = Some c.
Proof.
  intros Hi. rewrite index_get by lia.
  destruct (i <? len s) eqn:E; [|lia].
  apply get_some. unfold len in Hi. lia.
Qed.

Lemma first_pos_some (c : ascii) (s : string) (k : nat) :
  first_pos c s = Some k -> String.get k s = Some c.
Proof.
  revert k. induction s as [|d s IH]; intros k; simpl; [discriminate|].
  destruct (Ascii.eqb d c) eqn:E.
  - intros [= <-]. apply Ascii.eqb_eq in E. now subst.
  - destruct (first_pos c s); [|discriminate]. intros [= <-]. now apply IH.
Qed.

Lemma first_pos_none (c : ascii) (s : string) (k : nat) :
  first_pos c s = None -> String.get k s <> Some c.
Proof.
  revert k. induction s as [|d s IH]; intros k; simpl; [discriminate|].
  destruct (Ascii.eqb d c) eqn:E; [discriminate|].
  destruct (first_pos c s); [discriminate|]. intros _.
  destruct k as [|k]; [|now apply IH].
  intros [= ->]. rewrite Ascii.eqb_refl in E. discriminate.
Qed.

(** What [find] returns when it finds: a position from [i] on that holds [c]. *)
Lemma find_found (s : string) (c : ascii) (i : Z) :
  0 <= i -> find s c i <> -1 ->
  i <= find s c i < len s /\ index s (find s c i) = Some c.
Proof.
  intros Hi. unfold find. rewrite bound_pos by trivial.
  destruct (first_pos c (drop (Z.to_nat (Z.min i (len s))) s)) as [k|] eqn:E; [|congruence].
  intros _. apply first_pos_some in E.
  pose proof (get_lt _ _ _ E) as Hk. rewrite length_drop in Hk.
  pose proof (len_nonneg s). unfold len in *.
  assert (Hmin : Z.min i (Z.of_nat (String.length s)) = i) by lia.
  rewrite Hmin in *. split; [lia|].
  rewrite index_get by lia. fold (len s).
  destruct (i + Z.of_nat k <? len s) eqn:E'; [|unfold len in E'; lia].
  rewrite get_drop in E. rewrite <- E. f_equal. lia.
Qed.

(** When [find] returns [-1], no position from [i] on holds [c]. *)
Lemma find_none (s : string) (c : ascii) (i r : Z) :
  0 <= i -> find s c i = -1 -> i <= r -> index s r <> Some c.
Proof.
  intros Hi. unfold find. rewrite bound_pos by trivial.
  destruct (first_pos c (drop (Z.to_nat (Z.min i (len s))) s)) as [k|] eqn:E.
  { pose proof (len_nonneg s). intros H0. lia. }
  intros _ Hr Hc. pose proof (index_lt s r c ltac:(lia) Hc) as Hlt.
  rewrite index_get in Hc by lia.
  destruct (r <? len s) eqn:E'; [|discriminate].
  apply (first_pos_none _ _ (Z.to_nat (r - i))) in E. apply E.
  rewrite get_drop. rewrite <- Hc. f_equal. lia.
Qed.

(** A slice of two characters inside the text. *)
Lemma slice_two (s : string) (i : Z) :
  0 <= i -> i + 1 < len s ->
  exists d1 d2, index s i = Some d1 /\ index s (i + 1) = Some d2
                /\ slice s i (i + 2) = String d1 (String d2 EmptyString).
Proof.
  intros Hi Hlen. unfold slice.
  rewrite !bound_pos by lia.
  replace (Z.min (i + 2) (len s) - Z.min i (len s)) with 2 by lia.
  replace (Z.min i (len s)) with i by lia.
  rewrite !index_get by lia.
  destruct (i <? len s) eqn:E1; [|lia]. destruct (i + 1 <? len s) eqn:E2; [|lia].
  pose proof (get_drop s (Z.to_nat i) 0) as G0.
  pose proof (get_drop s (Z.to_nat i) 1) as G1.
  pose proof (length_drop s (Z.to_nat i)) as L.
  replace (Z.to_nat i + 0)%nat with (Z.to_nat i) in G0 by lia.
  replace (Z.to_nat i + 1)%nat with (Z.to_nat (i + 1)) in G1 by lia.
  rewrite <- G0, <- G1.
  destruct (drop (Z.to_nat i) s) as [|d1 [|d2 r]]; simpl in L; unfold len in *;
    try lia.
  exists d1, d2. repeat split; reflexivity.
Qed.

End PyStrFacts.

(** ** The tokenizer on an unclosed bracket *)

Section Unclosed.
Import PyStr PyStrFacts.

Variable smiles : string.
Variable p : Z.
Hypothesis p_nonneg : 0 <= p.
Hypothesis p_bracket : index smiles p = Some "["%char.
Hypothesis p_unclosed : find smiles "]" p = -1.

(** At the unclosed bracket [find] fails, [end] is 0, the slice is empty and
    the scan is sent back to the start of the text. *)
Lemma step_at_unclosed : tokenize_step smiles p = Done (0, EmptyString).
Proof.
  unfold tokenize_step. rewrite p_bracket, p_unclosed. simpl.
  f_equal. f_equal. unfold slice.
  pose proof (len_nonneg smiles).
  replace (Z.to_nat _) with O; [reflexivity|].
  rewrite !bound_pos by lia. lia.
Qed.

(** No iteration that starts at or before the unclosed bracket gets past it. *)
Lemma step_stays_before (i : Z) :
  0 <= i <= p ->
  exists i' token, tokenize_step smiles i = Done (i', token) /\ 0 <= i' <= p.
Proof.
  intros Hi. pose proof (index_lt _ _ _ p_nonneg p_bracket) as Hp.
  destruct (index_some smiles i ltac:(lia)) as [c Hc].
  unfold tokenize_step. rewrite Hc.
  destruct (Ascii.eqb c "[") eqn:Eb.
  { (* a bracket before [p]: its closing bracket, if any, is before [p] too *)
    eexists _, _. split; [reflexivity|].
    destruct (Z.eq_dec (find smiles "]" i) (-1)) as [E|E]; [lia|].
    destruct (find_found smiles "]"%char i ltac:(lia) E) as [Hr Hrc].
    assert (find smiles "]" i <> p) by (intros Heq; rewrite Heq in Hrc; congruence).
    assert (~ p <= find smiles "]" i)
      by (intros Hge; exact (find_none _ _ _ _ p_nonneg p_unclosed Hge Hrc)).
    lia. }
  assert (Hip : i <> p).
  { intros ->. rewrite p_bracket in Hc. injection Hc as <-. discriminate. }
  destruct (Ascii.eqb c "%") eqn:Ep; [|eexists _, _; split; [reflexivity|lia]].
  destruct (i + 2 <? len smiles) eqn:El; simpl;
    [|eexists _, _; split; [reflexivity|lia]].
  destruct (isdigit (slice smiles (i + 1) (i + 3))) eqn:Ed;
    [|eexists _, _; split; [reflexivity|lia]].
  eexists _, _. split; [reflexivity|].
  destruct (slice_two smiles (i + 1) ltac:(lia) ltac:(lia)) as (d1 & d2 & H1 & H2 & Hs).
  replace (i + 1 + 2) with (i + 3) in Hs by lia.
  replace (i + 1 + 1) with (i + 2) in H2 by lia.
  rewrite Hs in Ed. simpl in Ed.
  apply andb_prop in Ed as [Ed1 Ed2]. apply andb_prop in Ed2 as [Ed2 _].
  assert (i + 1 <> p).
  { intros Heq. rewrite Heq, p_bracket in H1. injection H1 as <-. discriminate. }
  assert (i + 2 <> p).
  { intros Heq. rewrite Heq, p_bracket in H2. injection H2 as <-. discriminate. }
  lia.
Qed.

Lemma loop_never_ends (fuel : nat) (i : Z) (T : gset string) :
  0 <= i <= p -> tokenize_loop fuel smiles i T = Timeout.
Proof.
  revert i T. induction fuel as [|fuel IH]; intros i T Hi; [reflexivity|].
  pose proof (index_lt _ _ _ p_nonneg p_bracket) as Hp.
  simpl. destruct (i <? len smiles) eqn:E; [|lia].
  destruct (step_stays_before i Hi) as (i' & token & -> & Hi').
  simpl. now apply IH.
Qed.

End Unclosed.

(** C1: on a text with a bracket that is never closed (position [p] holds
    an opening bracket and no closing bracket follows), the iteration at that
    bracket adds the empty token and moves the index back to 0, and the
    tokenizer does not terminate: it runs out of every amount of fuel. *)
Theorem tokenize_unclosed_bracket (smiles : string) (p : Z) :
  0 <= p ->
  PyStr.index smiles p = Some "["%char ->
  PyStr.find smiles "]" p = -1 ->
  tokenize_step smiles p = Done (0, EmptyString)
  /\ forall fuel, tokenize_smiles fuel smiles = Timeout.
Proof.
  intros Hp Hb Hu. split.
  - now apply step_at_unclosed.
  - intros fuel. apply (loop_never_ends smiles p Hp Hb Hu). lia.
Qed.

Lemma tokenize_unclosed_bracket_witness :
  tokenize_step "[" 0 = Done (0, EmptyString)
  /\ forall fuel, tokenize_smiles fuel "[" = Timeout.
Proof.
  apply (tokenize_unclosed_bracket "[" 0); [lia | reflexivity | reflexivity].
Defined.

(** ** Text inside text *)

Module StrFacts.

Lemma app_cons (x : ascii) (a b : string) : String x a ++ b = String x (a ++ b).
Proof. reflexivity. Qed.

Lemma app_nil_l (a : string) : "" ++ a = a.
Proof. reflexivity. Qed.

Lemma app_assoc (a b c : string) : (a ++ b) ++ c = a ++ b ++ c.
Proof.
  induction a as [|x a IH]; [reflexivity|]. now rewrite !app_cons, IH.
Qed.

Lemma app_nil_r (a : string) : a ++ "" = a.
Proof.
  induction a as [|x a IH]; [reflexivity|]. now rewrite app_cons, IH.
Qed.

Lemma length_app (a b : string) :
  String.length (a ++ b) = (String.length a + String.length b)%nat.
Proof.
  induction a as [|x a IH]; [reflexivity|]. rewrite app_cons. simpl. now rewrite IH.
Qed.

Lemma contains_refl (t : string) : contains t t.
Proof. exists "", "". now rewrite app_nil_l, app_nil_r. Qed.

Lemma contains_app_l (t r a : string) : contains t r -> contains t (a ++ r).
Proof. intros (x & y & ->). exists (a ++ x), y. now rewrite app_assoc. Qed.

Lemma contains_app_r (t r b : string) : contains t r -> contains t (r ++ b).
Proof. intros (x & y & ->). exists x, (y ++ b). now rewrite !app_assoc. Qed.

Lemma contains_cons (t r : string) (c : ascii) : contains t r -> contains t (String c r).
Proof. apply (contains_app_l t r (String c "")). Qed.

Lemma contains_trans (t u r : string) : contains t u -> contains u r -> contains t r.
Proof.
  intros Htu (x & y & ->). now apply contains_app_l, contains_app_r.
Qed.

Lemma contains_join (sep x : string) (l : list string) :
  In x l -> contains x (PyFmt.join sep l).
Proof.
  induction l as [|y l IH]; [intros []|].
  intros [->|Hin].
  - destruct l; [apply contains_refl|]. apply contains_app_r, contains_refl.
  - destruct l as [|z l]; [destruct Hin|].
    change (contains x (y ++ sep ++ PyFmt.join sep (z :: l))).
    now apply contains_app_l, contains_app_l, IH.
Qed.

Lemma repr_char_plain (c : ascii) :
  plain c = true -> PyFmt.repr_char PyFmt.QUOTE c = PyFmt.str1 c.
Proof.
  destruct c as [[] [] [] [] [] [] [] []]; try discriminate; intros _; reflexivity.
Qed.

Lemma repr_body_plain (t : string) :
  PyStr.all_chars plain t = true -> PyFmt.repr_body PyFmt.QUOTE t = t.
Proof.
  induction t as [|c t IH]; simpl; [reflexivity|].
  intros H. apply andb_prop in H as [Hc Ht].
  now rewrite repr_char_plain, IH.
Qed.

Lemma has_quote_plain (t : string) :
  PyStr.all_chars plain t = true -> PyFmt.has_char PyFmt.QUOTE t = false.
Proof.
  induction t as [|c t IH]; simpl; [reflexivity|].
  intros H. apply andb_prop in H as [Hc Ht]. rewrite (IH Ht), orb_false_r.
  unfold plain in Hc. apply andb_prop in Hc as [Hc _]. apply andb_prop in Hc as [_ Hc].
  now apply negb_true_iff in Hc.
Qed.

Lemma repr_plain (t : string) :
  PyStr.all_chars plain t = true ->
  PyFmt.repr t = String PyFmt.QUOTE (t ++ PyFmt.str1 PyFmt.QUOTE).
Proof.
  intros H. unfold PyFmt.repr. rewrite (has_quote_plain t H). simpl.
  now rewrite repr_body_plain.
Qed.

End StrFacts.

(** ** The validator *)

Section Validator.
Import StrFacts.
Context `{chem : Chem} `{rt : Runtime}.

Lemma tokenize_loop_grows (fuel : nat) (s : string) (i : Z) (acc T : gset string) :
  tokenize_loop fuel s i acc = Done T -> acc ⊆ T.
Proof.
  revert i acc. induction fuel as [|fuel IH]; intros i acc; simpl; [discriminate|].
  destruct (i <? PyStr.len s); [|intros [= <-]; set_solver].
  destruct (tokenize_step s i) as [[i' tok]| |]; simpl; [|discriminate..].
  intros H. apply IH in H. set_solver.
Qed.


Lemma tokenize_smiles_det (f1 f2 : nat) (s : string) (T1 T2 : gset string) :
  tokenize_smiles f1 s = Done T1 -> tokenize_smiles f2 s = Done T2 -> T1 = T2.
Proof.
  intros H1 H2.
  apply (tokenize_smiles_fuel f2) in H1. apply (tokenize_smiles_fuel f1) in H2.
  rewrite Nat.add_comm in H2. congruence.
Qed.

Lemma set_str_lists (X : gset string) (t : string) :
  t ∈ X -> contains (PyFmt.repr t) (set_str X).
Proof.
  intros Ht. unfold set_str.
  assert (Hin : In t (set_iter X)).
  { apply list_elem_of_In. rewrite (set_iter_perm X). now apply elem_of_elements. }
  destruct (set_iter X) as [|x l] eqn:E; [destruct Hin|].
  apply contains_cons, contains_app_r, contains_join, in_map, Hin.
Qed.

Lemma contains_repr_plain (t r : string) :
  PyStr.all_chars plain t = true -> contains (PyFmt.repr t) r -> contains t r.
Proof.
  intros Hp. apply contains_trans. rewrite (repr_plain t Hp).
  apply contains_cons, contains_app_r, contains_refl.
Qed.

(** What the validator returns once the text is parsed, made canonical and
    tokenized. *)
Lemma is_valid_smiles_parsed
  (fuel : nat) (smiles : string) (allowed : gset string)
  (mol : Mol) (canonical : string) (T : gset string) :
  MolFromSmiles smiles = Done (Some mol) ->
  MolToSmiles mol = Done canonical ->
  tokenize_smiles fuel canonical = Done T ->
  is_valid_smiles fuel smiles allowed =
    if bool_decide (T ∖ allowed = ∅) then Done (true, canonical)
    else Done (false, "Unsupported tokens: " ++ set_str (T ∖ allowed)).
Proof.
  intros Hp Hc Ht. unfold is_valid_smiles. rewrite Hp. simpl.
  rewrite Hc. simpl. rewrite Ht. simpl.
  destruct (bool_decide (T ∖ allowed = ∅)); reflexivity.
Qed.

(** C3 (amended): when [MolFromSmiles] returns [None], the validator returns
    invalid with the reason "Invalid RDKit molecule". *)
Theorem validator_parse_failure (fuel : nat) (smiles : string) (allowed : gset string) :
  MolFromSmiles smiles = Done None ->
  is_valid_smiles fuel smiles allowed = Done (false, "Invalid RDKit molecule").
Proof. intros Hp. unfold is_valid_smiles. now rewrite Hp. Qed.

(** C4: for an input that parses, whose canonical text is [canonical] and
    tokenizes to [T], the validator returns invalid exactly when [T] minus
    the allowed set is not empty; the reason is then "Unsupported tokens: "
    followed by the rendering of that difference, in which every
    unsupported token occurs as its [repr], and as itself when it is made of
    plain characters. For the canonical text [Si] the reason contains [Si]. *)
Theorem validator_unsupported_tokens
  (fuel : nat) (smiles : string) (allowed : gset string)
  (mol : Mol) (canonical : string) (T : gset string) :
  MolFromSmiles smiles = Done (Some mol) ->
  MolToSmiles mol = Done canonical ->
  tokenize_smiles fuel canonical = Done T ->
  exists (ok : bool) (result : string),
    is_valid_smiles fuel smiles allowed = Done (ok, result)
    /\ (ok = false <-> T ∖ allowed ≠ ∅)
    /\ (ok = false ->
        result = "Unsupported tokens: " ++ set_str (T ∖ allowed)
        /\ forall t, t ∈ T ∖ allowed ->
             contains (PyFmt.repr t) result
             /\ (PyStr.all_chars plain t = true -> contains t result))
    /\ (canonical = "[Si]" -> "[Si]" ∉ allowed ->
        ok = false /\ contains "[Si]" result).
Proof.
  intros Hp Hc Ht.
  rewrite (is_valid_smiles_parsed fuel smiles allowed mol canonical T Hp Hc Ht).
  assert (Hlist : forall t, t ∈ T ∖ allowed ->
            contains (PyFmt.repr t) ("Unsupported tokens: " ++ set_str (T ∖ allowed))
            /\ (PyStr.all_chars plain t = true ->
                contains t ("Unsupported tokens: " ++ set_str (T ∖ allowed)))).
  { intros t Hin.
    assert (contains (PyFmt.repr t) ("Unsupported tokens: " ++ set_str (T ∖ allowed)))
      by now apply contains_app_l, set_str_lists.
    split; [assumption|]. intros Hplain. now apply contains_repr_plain. }
  destruct (bool_decide (T ∖ allowed = ∅)) eqn:E.
  - apply bool_decide_eq_true in E. eexists _, _. split; [reflexivity|].
    split; [split; [discriminate|congruence]|].
    split; [discriminate|].
    intros -> Hsi. exfalso.
    assert (T = {[ "[Si]" ]})
      by (eapply (tokenize_smiles_det fuel 2); [exact Ht|vm_compute; reflexivity]).
    set_solver.
  - apply bool_decide_eq_false in E. eexists _, _. split; [reflexivity|].
    split; [tauto|]. split; [intros _; split; [reflexivity|exact Hlist]|].
    intros -> Hsi. split; [reflexivity|]. apply Hlist; [|reflexivity].
    assert (HT : T = {[ "[Si]" ]})
      by (eapply (tokenize_smiles_det fuel 2); [exact Ht|vm_compute; reflexivity]).
    set_solver.
Qed.


End Validator.

Lemma validator_parse_failure_witness :
  @is_valid_smiles toy_chem toy_runtime 0 "not_a_molecule" get_allowed_tokens
  = Done (false, "Invalid RDKit molecule").
Proof.
  apply (@validator_parse_failure toy_chem toy_runtime 0 "not_a_molecule" get_allowed_tokens).
  reflexivity.
Defined.

(** C3: the reason for a text that does not parse is "Invalid RDKit
    molecule", not "Invalid RDKit-equivalent molecule". *)
Lemma parse_failure_reason_differs :
  @MolFromSmiles toy_chem "not_a_molecule" = Done None
  /\ @is_valid_smiles toy_chem toy_runtime 0 "not_a_molecule" get_allowed_tokens
     = Done (false, "Invalid RDKit molecule")
  /\ "Invalid RDKit molecule" <> "Invalid RDKit-equivalent molecule".
Proof. repeat split. discriminate. Qed.

Lemma validator_unsupported_tokens_witness :
  exists (ok : bool) (result : string),
    @is_valid_smiles toy_chem toy_runtime 2 "[Si]" get_allowed_tokens = Done (ok, result)
    /\ ok = false /\ contains "[Si]" result.
Proof.
  assert (Ht : tokenize_smiles 2 "[Si]" = Done ({[ "[Si]" ]} : gset string))
    by (vm_compute; reflexivity).
  destruct (@validator_unsupported_tokens toy_chem toy_runtime 2 "[Si]"
              get_allowed_tokens "[Si]" "[Si]" {[ "[Si]" ]} eq_refl eq_refl Ht)
    as (ok & result & Hrun & _ & _ & Hsi).
  exists ok, result. split; [exact Hrun|].
  apply Hsi; [reflexivity|]. vm_compute. intros H. discriminate H.
Defined.



(** ** Stripping and splitting *)

Module StripFacts.
Import PyStr StrFacts.

Lemma lstrip_cases (s : string) :
  (lstrip s = "" /\ first_nonspace s = None)
  \/ exists c r, lstrip s = String c r /\ char_isspace c = false
                 /\ first_nonspace s = Some c.
Proof.
  induction s as [|c s IH]; simpl; [now left|].
  destruct (char_isspace c) eqn:E; [exact IH|]. right. now exists c, s.
Qed.

Lemma rstrip_head (c : ascii) (r : string) :
  char_isspace c = false -> exists r', rstrip (String c r) = String c r'.
Proof.
  intros Hc. simpl. destruct (rstrip r) as [|d r'].
  - rewrite Hc. now exists "".
  - now exists (String d r').
Qed.

Lemma strip_cases (s : string) :
  (strip s = "" /\ first_nonspace s = None)
  \/ exists c r, strip s = String c r /\ char_isspace c = false
                 /\ first_nonspace s = Some c.
Proof.
  unfold strip. destruct (lstrip_cases s) as [[-> Hn]|(c & r & -> & Hc & Hf)].
  - now left.
  - right. destruct (rstrip_head c r Hc) as [r' ->]. now exists c, r'.
Qed.

End StripFacts.

(** ** The file processor *)

Section FileProcessor.
Import StripFacts.
Context `{chem : Chem} `{rt : Runtime}.

Lemma skipped_iff (line : string) : skipped line = true <-> blank_or_comment line.
Proof.
  unfold skipped, blank_or_comment.
  destruct (strip_cases line) as [[-> ->]|(c & r & -> & Hc & ->)].
  - split; [now left|reflexivity].
  - simpl. split.
    + intros H. right. apply Ascii.eqb_eq in H. now subst.
    + intros [H|[= ->]]; [discriminate|reflexivity].
Qed.

(** What the loop body does with a line that is not skipped. *)
Lemma process_line_record
  (fuel : nat) (allowed : gset string) (line_num : Z) (line : string) (w w' : world) :
  skipped line = false ->
  process_line fuel allowed line_num line w = Done w' ->
  exists (smiles name result : string) (ok : bool) (w1 : world),
    is_valid_smiles fuel smiles allowed = Done (ok, result)
    /\ w1 = (if ok then accept (output_record result name) w else reject result w)
    /\ w' = (if line_num mod 1000 =? 0 then print (progress_notice line_num) w1 else w1).
Proof.
  intros Hs. unfold process_line. rewrite Hs.
  destruct (PyStr.split1 (PyStr.strip line)) as [|smiles rest]; [discriminate|].
  destruct (is_valid_smiles fuel smiles allowed) as [[ok result]| |] eqn:E;
    simpl; [|discriminate..].
  intros [= <-]. now eexists smiles, _, result, ok, _.
Qed.

Lemma process_lines_skip
  (fuel : nat) (allowed : gset string) (line_num : Z) (line : string)
  (rest : list string) (w : world) :
  skipped line = true ->
  process_lines fuel allowed (line :: rest) line_num w
  = process_lines fuel allowed rest (line_num + 1) w.
Proof. intros Hs. simpl. unfold process_line. now rewrite Hs. Qed.

(** C8: a line that is blank or a comment leaves every variable of the loop,
    the output file and the console as they were, whatever the fuel and the
    library; the loop goes on with the next line. *)
Theorem skipped_lines_ignored
  (fuel : nat) (allowed : gset string) (line_num : Z) (line : string)
  (rest : list string) (w : world) :
  blank_or_comment line ->
  process_line fuel allowed line_num line w = Done w
  /\ process_lines fuel allowed (line :: rest) line_num w
     = process_lines fuel allowed rest (line_num + 1) w.
Proof.
  intros H. apply skipped_iff in H. split.
  - unfold process_line. now rewrite H.
  - now apply process_lines_skip.
Qed.






End FileProcessor.

(** ** The counters *)

Section Counters.
Context `{chem : Chem} `{rt : Runtime}.

Lemma tally_total_set (d : list (string * Z)) (k : string) (v : Z) :
  tally_total (dict_set d k v) = tally_total d - dict_get d k 0 + v.
Proof.
  induction d as [|[k' v'] d IH]; simpl; [lia|].
  destruct (String.eqb k' k); simpl; lia.
Qed.

Lemma accept_counts (record : string) (w : world) :
  valid_count (accept record w) = valid_count w + 1
  /\ invalid_count (accept record w) = invalid_count w
  /\ length (outfile (accept record w)) = S (length (outfile w))
  /\ tally_total (invalid_reasons (accept record w)) = tally_total (invalid_reasons w).
Proof. simpl. rewrite length_app. simpl. repeat split; lia. Qed.

Lemma reject_counts (reason : string) (w : world) :
  valid_count (reject reason w) = valid_count w
  /\ invalid_count (reject reason w) = invalid_count w + 1
  /\ outfile (reject reason w) = outfile w
  /\ tally_total (invalid_reasons (reject reason w)) = tally_total (invalid_reasons w) + 1.
Proof. simpl. rewrite tally_total_set. repeat split; lia. Qed.

Lemma process_line_counted
  (fuel : nat) (allowed : gset string) (n : Z) (line : string) (w w' : world) :
  skipped line = false ->
  process_line fuel allowed n line w = Done w' ->
  counted_once w w'.
Proof.
  intros Hs Hp.
  destruct (process_line_record _ _ _ _ _ _ Hs Hp)
    as (smiles & name & result & ok & w1 & _ & Hw1 & ->).
  assert (counted_once w w1) as Hc.
  { subst w1. destruct ok; [left; apply accept_counts|right; apply reject_counts]. }
  now destruct (n mod 1000 =? 0).
Qed.

Lemma process_line_consistent
  (fuel : nat) (allowed : gset string) (n : Z) (line : string) (w w' : world) :
  process_line fuel allowed n line w = Done w' ->
  consistent w /\ 0 <= invalid_count w ->
  consistent w' /\ 0 <= invalid_count w'.
Proof.
  intros Hp [[Hv Hi] Hn]. destruct (skipped line) eqn:Hs.
  - unfold process_line in Hp. rewrite Hs in Hp. injection Hp as <-. now repeat split.
  - unfold consistent.
    destruct (process_line_counted _ _ _ _ _ _ Hs Hp)
      as [(-> & -> & -> & ->)|(-> & -> & -> & ->)]; lia.
Qed.

Lemma process_lines_consistent
  (fuel : nat) (allowed : gset string) (lines : list string) (n : Z) (w : world) :
  consistent w /\ 0 <= invalid_count w ->
  consistent (fst (process_lines fuel allowed lines n w))
  /\ 0 <= invalid_count (fst (process_lines fuel allowed lines n w)).
Proof.
  revert n w. induction lines as [|line rest IH]; intros n w Hw; [exact Hw|].
  cbn [process_lines].
  destruct (process_line fuel allowed n line w) as [w1| |] eqn:E; [|exact Hw..].
  apply IH. now apply (process_line_consistent fuel allowed n line w).
Qed.

Lemma initial_consistent : consistent initial_world /\ 0 <= invalid_count initial_world.
Proof. unfold consistent. simpl. lia. Qed.

(** The run over a file passes through the state reached on each of its
    prefixes. *)
Lemma process_lines_app
  (fuel : nat) (allowed : gset string) (pre post : list string) (n : Z) (w : world) :
  process_lines fuel allowed (pre ++ post) n w
  = match process_lines fuel allowed pre n w with
    | (w1, Done _) => process_lines fuel allowed post (n + Z.of_nat (length pre)) w1
    | r => r
    end.
Proof.
  revert n w. induction pre as [|line pre IH]; intros n w.
  - simpl. now rewrite Z.add_0_r.
  - cbn [app process_lines].
    destruct (process_line fuel allowed n line w) as [w1| |]; [|reflexivity..].
    rewrite IH. replace (n + 1 + Z.of_nat (length pre)) with (n + Z.of_nat (length (line :: pre)))
      by (simpl length; lia).
    reflexivity.
Qed.

(** C6: when the loop has ended with no record counted (the valid and the
    invalid counter add up to zero), the computation of the success rate
    raises [ZeroDivisionError]: the run ends with that exception after the
    header and the three counts were printed, without the success rate, the
    reasons or the report file. *)
Theorem empty_run_divides_by_zero
  (fuel : nat) (input_file output_file : string) (report_file : option string)
  (content : string) (w : world) :
  process_lines fuel get_allowed_tokens (readlines content) 1 initial_world = (w, Done tt) ->
  valid_count w + invalid_count w = 0 ->
  let r := clean_smiles_file fuel input_file output_file report_file content in
  success_rate (valid_count w) (invalid_count w) = Raised ZeroDivisionError
  /\ status r = Raised ZeroDivisionError
  /\ report r = None
  /\ outfile (final r) = []
  /\ console (final r)
     = app (console w) [ NL ++ "=== CLEANING REPORT ==="; "Total processed: 0";
                         "Valid molecules: 0"; "Invalid molecules: 0" ].
Proof.
  intros Hloop Hzero.
  pose proof (process_lines_consistent fuel get_allowed_tokens (readlines content) 1
                initial_world initial_consistent) as [[Hv Hi] Hn].
  rewrite Hloop in Hv, Hi, Hn. simpl in Hv, Hi, Hn.
  assert (valid_count w = 0) as Hv0 by lia.
  assert (invalid_count w = 0) as Hi0 by lia.
  assert (outfile w = []) as Ho by (destruct (outfile w); [reflexivity|simpl in Hv; lia]).
  unfold clean_smiles_file. rewrite Hloop.
  unfold print_summary, success_rate. simpl. rewrite Hv0, Hi0. simpl.
  repeat split; try assumption.
  now rewrite <- !app_assoc.
Qed.

End Counters.

Lemma skipped_lines_ignored_witness :
  @process_line toy_chem toy_runtime 0 get_allowed_tokens 1 "  # a comment" initial_world
  = Done initial_world
  /\ @process_lines toy_chem toy_runtime 0 get_allowed_tokens ["  # a comment"; "CCO"] 1
       initial_world
     = @process_lines toy_chem toy_runtime 0 get_allowed_tokens ["CCO"] (1 + 1) initial_world.
Proof.
  apply (@skipped_lines_ignored toy_chem toy_runtime 0 get_allowed_tokens 1
           "  # a comment" ["CCO"] initial_world).
  right. reflexivity.
Defined.


Lemma empty_run_divides_by_zero_witness :
  status (@clean_smiles_file toy_chem toy_runtime 0 "in.smi" "out.smi" None
            ("# no molecule here" ++ NL ++ "   " ++ NL))
  = Raised ZeroDivisionError.
Proof.
  assert (Hloop : @process_lines toy_chem toy_runtime 0 get_allowed_tokens
                    (readlines ("# no molecule here" ++ NL ++ "   " ++ NL)) 1 initial_world
                  = (initial_world, Done tt)) by reflexivity.
  destruct (@empty_run_divides_by_zero toy_chem toy_runtime 0 "in.smi" "out.smi" None
              ("# no molecule here" ++ NL ++ "   " ++ NL) initial_world Hloop eq_refl)
    as (_ & Hstatus & _).
  exact Hstatus.
Defined.

(** ** Lines, names and records *)

Module LineFacts.
Import PyStr StrFacts StripFacts.

Lemma all_chars_app (p : ascii -> bool) (a b : string) :
  all_chars p (a ++ b) = all_chars p a && all_chars p b.
Proof.
  induction a as [|x a IH]; [reflexivity|].
  rewrite app_cons. simpl. now rewrite IH, andb_assoc.
Qed.

Lemma all_chars_impl (p q : ascii -> bool) (s : string) :
  (forall c, p c = true -> q c = true) -> all_chars p s = true -> all_chars q s = true.
Proof.
  intros Hpq. induction s as [|x s IH]; simpl; [trivial|].
  intros H. apply andb_prop in H as [Hx Hs]. now rewrite (Hpq x Hx), IH.
Qed.

Lemma all_chars_get (p : ascii -> bool) (s : string) :
  (forall k x, String.get k s = Some x -> p x = true) -> all_chars p s = true.
Proof.
  induction s as [|c s IH]; intros H; simpl; [reflexivity|].
  rewrite (H O c eq_refl). simpl. apply IH. intros k x Hk. exact (H (S k) x Hk).
Qed.

Lemma nonspace_inline (c : ascii) : nonspace c = true -> inline c = true.
Proof.
  destruct c as [[] [] [] [] [] [] [] []]; try reflexivity; intros H; discriminate H.
Qed.

Lemma space_not_nonspace (c : ascii) : char_isspace c = true -> nonspace c = false.
Proof. unfold nonspace. now intros ->. Qed.

(** *** [lstrip] *)

Lemma lstrip_starts (s : string) : starts_nonspace s = true -> lstrip s = s.
Proof.
  destruct s as [|c s]; [discriminate|]. unfold starts_nonspace, nonspace. simpl.
  now destruct (char_isspace c).
Qed.

Lemma lstrip_result (s : string) : lstrip s = "" \/ starts_nonspace (lstrip s) = true.
Proof.
  destruct (lstrip_cases s) as [[-> _]|(c & r & -> & Hc & _)]; [now left|right].
  unfold starts_nonspace, nonspace. now rewrite Hc.
Qed.

Lemma lstrip_suffix (s : string) :
  exists sp, s = sp ++ lstrip s /\ all_chars char_isspace sp = true.
Proof.
  induction s as [|c s IH]; [now exists ""|]. simpl.
  destruct (char_isspace c) eqn:E; [|now exists ""].
  destruct IH as (sp & Hs & Hsp). exists (String c sp). rewrite app_cons, <- Hs.
  simpl. now rewrite E, Hsp.
Qed.

Lemma lstrip_spaces_app (sp s : string) :
  all_chars char_isspace sp = true -> lstrip (sp ++ s) = lstrip s.
Proof.
  induction sp as [|c sp IH]; [reflexivity|]. rewrite app_cons. simpl.
  intros H. apply andb_prop in H as [-> Hsp]. now apply IH.
Qed.

Lemma all_chars_lstrip (p : ascii -> bool) (s : string) :
  all_chars p s = true -> all_chars p (lstrip s) = true.
Proof.
  destruct (lstrip_suffix s) as (sp & Hs & _). intros H. rewrite Hs in H.
  rewrite all_chars_app in H. now apply andb_prop in H as [_ H].
Qed.

(** *** [rstrip] *)

Lemma rstrip_cons (c : ascii) (r : string) :
  rstrip (String c r)
  = match rstrip r with
    | EmptyString => if char_isspace c then EmptyString else String c EmptyString
    | r' => String c r'
    end.
Proof. reflexivity. Qed.

Lemma rstrip_cons_nonempty (c : ascii) (r : string) :
  rstrip r <> "" -> rstrip (String c r) = String c (rstrip r).
Proof. rewrite rstrip_cons. destruct (rstrip r); [congruence|reflexivity]. Qed.

Lemma rstrip_app_nonempty (a b : string) :
  rstrip b <> "" -> rstrip (a ++ b) = a ++ rstrip b.
Proof.
  intros Hb. induction a as [|x a IH]; [reflexivity|].
  rewrite !app_cons, rstrip_cons_nonempty; rewrite IH; [reflexivity|].
  destruct a; [exact Hb|discriminate].
Qed.

Lemma rstrip_spaces (w : string) : all_chars char_isspace w = true -> rstrip w = "".
Proof.
  induction w as [|c w IH]; [reflexivity|]. simpl all_chars.
  intros H. apply andb_prop in H as [Hc Hw]. now rewrite rstrip_cons, (IH Hw), Hc.
Qed.

Lemma rstrip_app_spaces (b w : string) :
  all_chars char_isspace w = true -> rstrip (b ++ w) = rstrip b.
Proof.
  intros Hw. induction b as [|x b IH]; [now apply rstrip_spaces|].
  now rewrite app_cons, !rstrip_cons, IH.
Qed.

Lemma rstrip_nonspace (s : string) : all_chars nonspace s = true -> rstrip s = s.
Proof.
  induction s as [|c s IH]; [reflexivity|]. simpl all_chars.
  intros H. apply andb_prop in H as [Hc Hs]. rewrite rstrip_cons, (IH Hs).
  destruct s; [|reflexivity]. unfold nonspace in Hc. now destruct (char_isspace c).
Qed.

Lemma rstrip_idem (s : string) : rstrip (rstrip s) = rstrip s.
Proof.
  induction s as [|c s IH]; [reflexivity|]. rewrite rstrip_cons.
  destruct (rstrip s) as [|d r'] eqn:E.
  - destruct (char_isspace c) eqn:Ec; [reflexivity|]. simpl. now rewrite Ec.
  - rewrite rstrip_cons_nonempty; rewrite IH; [reflexivity|discriminate].
Qed.

(** A non-empty end of a text without trailing white space has none. *)
Lemma rstrip_suffix_fixed (a b : string) :
  rstrip (a ++ b) = a ++ b -> b <> "" -> rstrip b = b.
Proof.
  intros H Hb. induction a as [|x a IH]; [exact H|]. apply IH.
  rewrite app_cons, rstrip_cons in H.
  destruct (rstrip (a ++ b)) as [|d r'] eqn:E.
  - exfalso. destruct (char_isspace x); [discriminate|].
    injection H as H. destruct a; [now apply Hb|discriminate].
  - now injection H as H.
Qed.

Lemma all_chars_rstrip (p : ascii -> bool) (s : string) :
  all_chars p s = true -> all_chars p (rstrip s) = true.
Proof.
  induction s as [|c s IH]; [trivial|].
  intros H. simpl in H. apply andb_prop in H as [Hc Hs]. rewrite rstrip_cons.
  specialize (IH Hs). destruct (rstrip s) as [|d r'].
  - destruct (char_isspace c); [reflexivity|]. simpl. now rewrite Hc.
  - simpl all_chars in *. now rewrite Hc, IH.
Qed.

(** *** [word] and [split1] *)

Lemma word_app (c : string) (x : ascii) (r : string) :
  all_chars nonspace c = true -> char_isspace x = true ->
  word (c ++ String x r) = (c, String x r).
Proof.
  intros Hc Hx. induction c as [|y c IH].
  - rewrite app_nil_l. simpl. now rewrite Hx.
  - simpl all_chars in Hc. apply andb_prop in Hc as [Hy Hc].
    rewrite app_cons. simpl. rewrite (IH Hc).
    unfold nonspace in Hy. now destruct (char_isspace y).
Qed.

Lemma word_split (s w rest : string) : word s = (w, rest) -> s = w ++ rest.
Proof.
  revert w rest. induction s as [|c s IH]; intros w rest; simpl.
  - now intros [= <- <-].
  - destruct (char_isspace c); [now intros [= <- <-]|].
    destruct (word s) as [w' rest'] eqn:E. intros [= <- <-].
    now rewrite app_cons, <- (IH w' rest' eq_refl).
Qed.

Lemma word_starts (s w rest : string) :
  starts_nonspace s = true -> word s = (w, rest) -> w <> "".
Proof.
  destruct s as [|c s]; [discriminate|]. unfold starts_nonspace, nonspace. simpl.
  destruct (char_isspace c); [discriminate|]. intros _.
  destruct (word s) as [w' rest']. now intros [= <- <-].
Qed.

End LineFacts.

(** ** Reading lines *)

Module ReadFacts.
Import PyStr StrFacts LineFacts.

Lemma readlines_cons (c : ascii) (r : string) :
  readlines (String c r)
  = if Ascii.eqb c PyFmt.LF then PyFmt.str1 PyFmt.LF :: readlines r
    else if Ascii.eqb c PyFmt.CR then
      match r with
      | String d r' =>
          if Ascii.eqb d PyFmt.LF then PyFmt.str1 PyFmt.LF :: readlines r'
          else PyFmt.str1 PyFmt.LF :: readlines r
      | EmptyString => [PyFmt.str1 PyFmt.LF]
      end
    else
      match readlines r with
      | [] => [PyFmt.str1 c]
      | l :: ls => String c l :: ls
      end.
Proof. reflexivity. Qed.

Lemma inline_eqb (c : ascii) :
  inline c = true -> Ascii.eqb c PyFmt.LF = false /\ Ascii.eqb c PyFmt.CR = false.
Proof.
  unfold inline. intros H. apply andb_prop in H as [H1 H2].
  now apply negb_true_iff in H1, H2.
Qed.

(** A text that starts with a record: the record is its first line. *)
Lemma readlines_record (body rest : string) :
  all_chars inline body = true ->
  readlines (body ++ NL ++ rest) = (body ++ NL) :: readlines rest.
Proof.
  intros Hb. induction body as [|c body IH].
  - reflexivity.
  - simpl in Hb. apply andb_prop in Hb as [Hc Hb].
    destruct (inline_eqb c Hc) as [E1 E2].
    rewrite !app_cons, readlines_cons, E1, E2, (IH Hb). reflexivity.
Qed.

Lemma line_ok_cons (c : ascii) (l : string) :
  inline c = true -> line_ok l -> line_ok (String c l).
Proof.
  intros Hc (body & Hb & [->| ->]); exists (String c body); simpl; rewrite Hc, Hb;
    split; auto.
Qed.

Lemma line_ok_nl : line_ok (PyFmt.str1 PyFmt.LF).
Proof. exists "". split; [reflexivity|now right]. Qed.

Lemma readlines_ok_both (s : string) :
  Forall line_ok (readlines s) /\ forall c, Forall line_ok (readlines (String c s)).
Proof.
  induction s as [|d s [IH1 IH2]].
  - split; [constructor|]. intros c. rewrite readlines_cons.
    destruct (Ascii.eqb c PyFmt.LF) eqn:E1; [repeat constructor; apply line_ok_nl|].
    destruct (Ascii.eqb c PyFmt.CR) eqn:E2; [repeat constructor; apply line_ok_nl|].
    repeat constructor. exists (PyFmt.str1 c). split; [|now left].
    simpl. unfold inline. now rewrite E1, E2.
  - split; [apply IH2|]. intros c. rewrite readlines_cons.
    destruct (Ascii.eqb c PyFmt.LF) eqn:E1;
      [constructor; [apply line_ok_nl|apply IH2]|].
    destruct (Ascii.eqb c PyFmt.CR) eqn:E2.
    + destruct (Ascii.eqb d PyFmt.LF); constructor; auto using line_ok_nl.
    + assert (inline c = true) as Hc by (unfold inline; now rewrite E1, E2).
      specialize (IH2 d). destruct (readlines (String d s)) as [|l ls].
      * repeat constructor. exists (PyFmt.str1 c). split; [|now left].
        simpl. now rewrite Hc.
      * inversion IH2; subst. constructor; [now apply line_ok_cons|assumption].
Qed.

Lemma readlines_ok (s : string) : Forall line_ok (readlines s).
Proof. apply readlines_ok_both. Qed.

(** Stripping a line leaves no line break in it. *)
Lemma strip_line_inline (l : string) : line_ok l -> all_chars inline (strip l) = true.
Proof.
  intros (body & Hb & [->| ->]).
  - now apply all_chars_rstrip, all_chars_lstrip.
  - unfold strip. destruct (lstrip_suffix body) as (sp & Hs & Hsp).
    assert (all_chars inline (lstrip body) = true) as Hl by now apply all_chars_lstrip.
    rewrite Hs at 1. rewrite app_assoc, lstrip_spaces_app by assumption.
    destruct (lstrip_result body) as [E|E].
    + rewrite E. reflexivity.
    + destruct (lstrip body) as [|x r] eqn:Eb; [discriminate|].
      rewrite app_cons, lstrip_starts by exact E.
      rewrite <- app_cons, rstrip_app_spaces by reflexivity.
      now apply all_chars_rstrip.
Qed.

End ReadFacts.

(** ** The tokens cover the text *)

Module CoverFacts.
Import PyStr PyStrFacts StrFacts LineFacts.

Lemma get_take (s : string) (n k : nat) :
  (k < n)%nat -> String.get k (take n s) = String.get k s.
Proof.
  revert s k. induction n as [|n IH]; intros [|c s] [|k] Hk; simpl; try lia; trivial.
  apply IH. lia.
Qed.

Lemma has_char_get (s : string) (k : nat) (x : ascii) :
  String.get k s = Some x -> PyFmt.has_char x s = true.
Proof.
  revert k. induction s as [|c s IH]; intros [|k]; simpl; try discriminate.
  - intros [= ->]. now rewrite Ascii.eqb_refl.
  - intros H. rewrite (IH k H). apply orb_true_r.
Qed.

Lemma slice_has (s : string) (a b j : Z) (x : ascii) :
  0 <= a -> a <= j < b -> index s j = Some x ->
  PyFmt.has_char x (slice s a b) = true.
Proof.
  intros Ha Hj Hx. pose proof (index_lt s j x ltac:(lia) Hx) as Hlt.
  rewrite index_get in Hx by lia. destruct (j <? len s) eqn:E; [|discriminate].
  unfold slice. rewrite !bound_pos by lia.
  apply (has_char_get _ (Z.to_nat (j - a))).
  rewrite get_take by lia. rewrite get_drop. rewrite <- Hx. f_equal. lia.
Qed.

Lemma find_ge (s : string) (c : ascii) (i : Z) : 0 <= i -> -1 <= find s c i.
Proof.
  intros Hi. destruct (Z.eq_dec (find s c i) (-1)) as [->|E]; [lia|].
  destruct (find_found s c i Hi E). lia.
Qed.

(** One iteration: the token holds every character that it steps over. *)
Lemma tokenize_step_covers (s : string) (i : Z) :
  0 <= i < len s ->
  exists i' tok,
    tokenize_step s i = Done (i', tok) /\ 0 <= i'
    /\ forall j x, i <= j < i' -> index s j = Some x -> PyFmt.has_char x tok = true.
Proof.
  intros Hi. destruct (index_some s i Hi) as [c Hc].
  unfold tokenize_step. rewrite Hc.
  assert (Hone : forall j x, i <= j < i + 1 -> index s j = Some x ->
                   PyFmt.has_char x (String c "") = true).
  { intros j x Hj Hx. replace j with i in Hx by lia.
    rewrite Hc in Hx. injection Hx as ->. simpl. now rewrite Ascii.eqb_refl. }
  destruct (Ascii.eqb c "[").
  { eexists _, _. split; [reflexivity|].
    pose proof (find_ge s "]"%char i ltac:(lia)). split; [lia|].
    intros j x Hj Hx. apply (slice_has s i _ j); [lia|lia|exact Hx]. }
  destruct (Ascii.eqb c "%"); [|eexists _, _; split; [reflexivity|split; [lia|exact Hone]]].
  destruct ((i + 2 <? len s) && isdigit (slice s (i + 1) (i + 3)));
    [|eexists _, _; split; [reflexivity|split; [lia|exact Hone]]].
  eexists _, _. split; [reflexivity|]. split; [lia|].
  intros j x Hj Hx. apply (slice_has s i _ j); [lia|lia|exact Hx].
Qed.

Lemma tokenize_loop_covers (fuel : nat) (s : string) (i : Z) (acc T : gset string) :
  0 <= i ->
  tokenize_loop fuel s i acc = Done T ->
  forall j x, i <= j -> index s j = Some x ->
    exists t, t ∈ T /\ PyFmt.has_char x t = true.
Proof.
  revert i acc. induction fuel as [|fuel IH]; intros i acc Hi; simpl; [discriminate|].
  destruct (i <? len s) eqn:E.
  - destruct (tokenize_step_covers s i ltac:(lia)) as (i' & tok & -> & Hi' & Hcov).
    simpl. intros Hloop j x Hj Hx.
    destruct (Z_lt_le_dec j i') as [Hlt|Hge].
    + exists tok. split; [|apply (Hcov j x); [lia|exact Hx]].
      apply tokenize_loop_grows in Hloop. set_solver.
    + exact (IH i' _ Hi' Hloop j x Hge Hx).
  - intros _ j x Hj Hx. pose proof (index_lt s j x ltac:(lia) Hx). lia.
Qed.

Lemma allowed_nonspace :
  Forall (fun t => all_chars nonspace t = true) allowed_list.
Proof. repeat constructor. Qed.

(** A text whose tokens are all allowed has no white space. *)
Lemma allowed_text_nonspace (fuel : nat) (s : string) (T : gset string) :
  tokenize_smiles fuel s = Done T -> T ⊆ get_allowed_tokens ->
  all_chars nonspace s = true.
Proof.
  intros Ht Hsub. apply all_chars_get. intros k x Hk.
  assert (index s (Z.of_nat k) = Some x) as Hx.
  { pose proof (get_lt s k x Hk). rewrite index_get by lia.
    destruct (Z.of_nat k <? len s) eqn:E; [|unfold len in E; lia].
    now rewrite Nat2Z.id. }
  destruct (tokenize_loop_covers fuel s 0 ∅ T ltac:(lia) Ht (Z.of_nat k) x ltac:(lia) Hx)
    as (t & Hin & Hhas).
  assert (t ∈ allowed_list) as Hal.
  { apply Hsub in Hin. unfold get_allowed_tokens in Hin.
    now apply elem_of_list_to_set in Hin. }
  pose proof (proj1 (Forall_forall _ _) allowed_nonspace t Hal) as Hns.
  clear - Hns Hhas. induction t as [|c t IH]; simpl in *; [discriminate|].
  apply andb_prop in Hns as [Hc Ht]. apply orb_prop in Hhas as [He|Hr].
  - apply Ascii.eqb_eq in He. now subst.
  - now apply IH.
Qed.

End CoverFacts.

(** ** Records of the output file *)

Module RecordFacts.
Import PyStr StrFacts StripFacts LineFacts.

Lemma uint_nonspace (d : Decimal.uint) :
  all_chars nonspace (NilEmpty.string_of_uint d) = true.
Proof. induction d; simpl; trivial. Qed.

Lemma str_int_nonspace (n : Z) : all_chars nonspace (PyFmt.str_int n) = true.
Proof.
  unfold PyFmt.str_int, NilZero.string_of_int, NilZero.string_of_uint.
  destruct (Z.to_int n) as [d|d]; destruct d; try reflexivity;
    try (apply (uint_nonspace (_ _))); simpl; apply (uint_nonspace _).
Qed.

Lemma starts_nonspace_all (s : string) :
  s <> "" -> all_chars nonspace s = true -> starts_nonspace s = true.
Proof.
  destruct s as [|c s]; [congruence|]. simpl. intros _ H.
  now apply andb_prop in H as [H _].
Qed.

Lemma nonspace_name (s : string) :
  s <> "" -> all_chars nonspace s = true -> good_name s.
Proof.
  intros Hne Hs. repeat split.
  - now apply starts_nonspace_all.
  - now apply rstrip_nonspace.
  - revert Hs. apply all_chars_impl, nonspace_inline.
Qed.

Lemma default_name_good (n : Z) : good_name ("mol_" ++ PyFmt.str_int n).
Proof.
  apply nonspace_name; [discriminate|].
  rewrite all_chars_app, str_int_nonspace. reflexivity.
Qed.

Lemma output_record_body (c name : string) :
  output_record c name = (c ++ PyFmt.str1 PyFmt.TAB ++ name) ++ NL.
Proof. unfold output_record, NL. now rewrite !app_assoc. Qed.

(** Splitting [smiles], white space, [name]. *)
Lemma split1_two (c : string) (sp : ascii) (name : string) :
  c <> "" -> all_chars nonspace c = true -> char_isspace sp = true ->
  starts_nonspace name = true ->
  split1 (c ++ String sp name) = [c; name].
Proof.
  intros Hne Hc Hsp Hn. unfold split1.
  assert (starts_nonspace (c ++ String sp name) = true) as Hst.
  { destruct c as [|x c]; [congruence|]. rewrite app_cons. simpl in *.
    now apply andb_prop in Hc as [Hx _]. }
  rewrite (lstrip_starts _ Hst).
  destruct (c ++ String sp name) as [|y l] eqn:E; [discriminate|].
  rewrite <- E, (word_app c sp name Hc Hsp).
  simpl lstrip. rewrite Hsp, (lstrip_starts name Hn).
  destruct name; [discriminate|reflexivity].
Qed.

(** What [split1] returns on a text that is not blank. *)
Lemma split1_inv (s smiles : string) (rest : list string) :
  split1 s = smiles :: rest ->
  smiles <> ""
  /\ (rest = []
      \/ exists name pre, rest = [name] /\ starts_nonspace name = true /\ s = pre ++ name).
Proof.
  unfold split1. destruct (lstrip_suffix s) as (sp0 & Hs & _).
  destruct (lstrip_result s) as [E|Hst]; [now rewrite E|].
  destruct (lstrip s) as [|c r] eqn:El; [discriminate|].
  destruct (word (String c r)) as [w rest0] eqn:Ew.
  pose proof (word_starts _ _ _ Hst Ew) as Hw.
  pose proof (word_split _ _ _ Ew) as Hsplit.
  destruct (lstrip_suffix rest0) as (sp & Hr & _).
  destruct (lstrip_result rest0) as [E|Hst'].
  - rewrite E. intros [= <- <-]. split; [exact Hw|now left].
  - destruct (lstrip rest0) as [|d r'] eqn:Er; [discriminate|].
    intros [= <- <-]. split; [exact Hw|right].
    exists (String d r'), (sp0 ++ w ++ sp). split; [reflexivity|]. split; [exact Hst'|].
    rewrite Hs, Hsplit, Hr at 1. now rewrite !app_assoc.
Qed.

(** The name that the file processor gives to the record of a line. *)
Lemma record_name_good (line smiles : string) (rest : list string) (n : Z) :
  line_ok line ->
  split1 (strip line) = smiles :: rest ->
  smiles <> ""
  /\ good_name match rest with
               | name :: _ => name
               | [] => "mol_" ++ PyFmt.str_int n
               end.
Proof.
  intros Hok Hsplit. destruct (split1_inv _ _ _ Hsplit) as [Hsm Hrest].
  split; [exact Hsm|].
  destruct Hrest as [->|(name & pre & -> & Hst & Hline)]; [apply default_name_good|].
  assert (name <> "") as Hname by (destruct name; [discriminate|congruence]).
  repeat split; [exact Hst| |].
  - apply (rstrip_suffix_fixed pre name); [|exact Hname].
    rewrite <- Hline. apply rstrip_idem.
  - pose proof (ReadFacts.strip_line_inline line Hok) as Hin.
    rewrite Hline, all_chars_app in Hin.
    now apply andb_prop in Hin as [_ Hin].
Qed.

Lemma output_record_one_line (c name : string) :
  all_chars nonspace c = true -> good_name name -> one_line (output_record c name).
Proof.
  intros Hc (_ & _ & Hn). exists (c ++ PyFmt.str1 PyFmt.TAB ++ name).
  split; [apply output_record_body|].
  rewrite !all_chars_app, Hn, (all_chars_impl _ _ c nonspace_inline Hc). reflexivity.
Qed.

(** The lines of a text made of one-line records are the records. *)
Lemma readlines_one_line (rs : list string) :
  Forall one_line rs -> readlines (fold_right String.append "" rs) = rs.
Proof.
  induction 1 as [|r rs (body & -> & Hb) Hrs IH]; [reflexivity|].
  simpl fold_right. rewrite StrFacts.app_assoc, ReadFacts.readlines_record by exact Hb.
  now rewrite IH.
Qed.

End RecordFacts.

(** ** Running the tool on its own output *)

Section Rerun.
Import PyStr StrFacts StripFacts LineFacts ReadFacts CoverFacts RecordFacts.
Context `{chem : Chem} `{rt : Runtime}.

(** What a verdict of valid says about the text. *)
Lemma is_valid_smiles_true
  (fuel : nat) (smiles : string) (allowed : gset string) (result : string) :
  is_valid_smiles fuel smiles allowed = Done (true, result) ->
  exists (mol : Mol) (T : gset string),
    MolFromSmiles smiles = Done (Some mol) /\ MolToSmiles mol = Done result
    /\ tokenize_smiles fuel result = Done T /\ T ⊆ allowed.
Proof.
  unfold is_valid_smiles.
  destruct (MolFromSmiles smiles) as [[mol|]| |] eqn:Ep; simpl; try discriminate.
  destruct (MolToSmiles mol) as [c| |] eqn:Ec; simpl; try discriminate.
  destruct (tokenize_smiles fuel c) as [T| |] eqn:Et; simpl; try discriminate.
  destruct (bool_decide (T ∖ allowed = ∅)) eqn:E; simpl; [|discriminate].
  intros [= <-]. apply bool_decide_eq_true in E.
  exists mol, T. repeat split; trivial. set_solver.
Qed.

(** The parts of a line that is not skipped. *)
Lemma process_line_parts
  (fuel : nat) (allowed : gset string) (line_num : Z) (line : string) (w w' : world) :
  skipped line = false ->
  process_line fuel allowed line_num line w = Done w' ->
  exists (smiles : string) (rest : list string) (result : string) (ok : bool),
    split1 (strip line) = smiles :: rest
    /\ is_valid_smiles fuel smiles allowed = Done (ok, result)
    /\ outfile w'
       = if ok
         then (outfile w
               ++ [output_record result
                     match rest with
                     | name :: _ => name
                     | [] => "mol_" ++ PyFmt.str_int line_num
                     end])%list
         else outfile w.
Proof.
  intros Hs. unfold process_line. rewrite Hs.
  destruct (split1 (strip line)) as [|smiles rest]; [discriminate|].
  destruct (is_valid_smiles fuel smiles allowed) as [[ok result]| |] eqn:E;
    simpl; [|discriminate..].
  intros [= <-]. exists smiles, rest, result, ok.
  repeat split; trivial. now destruct ok, (line_num mod 1000 =? 0).
Qed.

Lemma strip_own_record (c name : string) :
  c <> "" -> all_chars nonspace c = true -> good_name name ->
  strip (output_record c name) = c ++ String PyFmt.TAB name.
Proof.
  intros Hne Hc (Hn1 & Hn2 & _). unfold strip, output_record.
  rewrite lstrip_starts.
  2:{ destruct c as [|x c]; [congruence|]. rewrite app_cons. simpl in *.
      now apply andb_prop in Hc as [Hx _]. }
  assert (rstrip (name ++ PyFmt.str1 PyFmt.LF) = name) as Hr
    by (rewrite rstrip_app_spaces by reflexivity; exact Hn2).
  assert (name <> "") as Hname by (destruct name; [discriminate|congruence]).
  rewrite rstrip_app_nonempty.
  - rewrite rstrip_app_nonempty; rewrite Hr; [reflexivity|exact Hname].
  - rewrite rstrip_app_nonempty; rewrite Hr; [discriminate|exact Hname].
Qed.

(** One record of the tool's own output is accepted and written back. *)
Lemma process_own_record (fuel : nat) (n : Z) (r : string) (w : world) :
  own_record fuel r ->
  exists w',
    process_line fuel get_allowed_tokens n r w = Done w'
    /\ outfile w' = (outfile w ++ [r])%list
    /\ valid_count w' = valid_count w + 1
    /\ invalid_count w' = invalid_count w
    /\ invalid_reasons w' = invalid_reasons w.
Proof.
  intros (c & name & -> & Hne & Hhash & (m & T & Hp & Hc & Ht & Hsub) & Hname).
  pose proof (allowed_text_nonspace fuel c T Ht Hsub) as Hns.
  pose proof (strip_own_record c name Hne Hns Hname) as Hstrip.
  assert (skipped (output_record c name) = false) as Hskip.
  { unfold skipped. rewrite Hstrip. destruct c as [|x c]; [congruence|].
    rewrite app_cons. exact Hhash. }
  unfold process_line. rewrite Hskip, Hstrip.
  destruct Hname as (Hn1 & Hn2 & Hn3).
  rewrite (split1_two c PyFmt.TAB name Hne Hns eq_refl Hn1).
  rewrite (is_valid_smiles_parsed fuel c get_allowed_tokens m c T Hp Hc Ht).
  rewrite bool_decide_eq_true_2 by set_solver. simpl.
  eexists. split; [reflexivity|]. now destruct (n mod 1000 =? 0).
Qed.

Lemma process_own_records (fuel : nat) (rs : list string) (n : Z) (w : world) :
  Forall (own_record fuel) rs ->
  exists w',
    process_lines fuel get_allowed_tokens rs n w = (w', Done tt)
    /\ outfile w' = (outfile w ++ rs)%list
    /\ valid_count w' = valid_count w + Z.of_nat (length rs)
    /\ invalid_count w' = invalid_count w
    /\ invalid_reasons w' = invalid_reasons w.
Proof.
  intros Hrs. revert n w. induction Hrs as [|r rs Hr Hrs IH]; intros n w.
  - exists w. simpl. rewrite List.app_nil_r. repeat split; trivial. lia.
  - destruct (process_own_record fuel n r w Hr) as (w1 & Hp & Ho & Hv & Hi & Hd).
    destruct (IH (n + 1) w1) as (w' & Hp' & Ho' & Hv' & Hi' & Hd').
    exists w'. cbn [process_lines]. rewrite Hp. split; [exact Hp'|].
    rewrite Ho', Ho, Hv', Hv, Hi', Hi, Hd', Hd, <- List.app_assoc.
    repeat split; trivial. simpl length. lia.
Qed.

Lemma own_record_one_line (fuel : nat) (r : string) : own_record fuel r -> one_line r.
Proof.
  intros (c & name & -> & _ & _ & (m & T & _ & _ & Ht & Hsub) & Hname).
  apply output_record_one_line; [|exact Hname].
  exact (allowed_text_nonspace fuel c T Ht Hsub).
Qed.

(** Every record that the file processor writes is one line. *)
Lemma process_line_one_line (fuel : nat) (n : Z) (line : string) (w w' : world) :
  line_ok line ->
  process_line fuel get_allowed_tokens n line w = Done w' ->
  Forall one_line (outfile w) ->
  Forall one_line (outfile w').
Proof.
  intros Hok Hp Hw. destruct (skipped line) eqn:Hs.
  { unfold process_line in Hp. rewrite Hs in Hp. now injection Hp as <-. }
  destruct (process_line_parts _ _ _ _ _ _ Hs Hp)
    as (smiles & rest & result & ok & Hsplit & Hvalid & ->).
  destruct ok; [|exact Hw]. apply Forall_app. split; [exact Hw|].
  constructor; [|constructor].
  destruct (is_valid_smiles_true _ _ _ _ Hvalid) as (mol & T & _ & _ & Ht & Hsub).
  apply output_record_one_line.
  - exact (allowed_text_nonspace fuel result T Ht Hsub).
  - exact (proj2 (record_name_good line smiles rest n Hok Hsplit)).
Qed.

Lemma process_lines_one_line (fuel : nat) (lines : list string) (n : Z) (w : world) :
  Forall line_ok lines ->
  Forall one_line (outfile w) ->
  Forall one_line (outfile (fst (process_lines fuel get_allowed_tokens lines n w))).
Proof.
  intros Hl. revert n w. induction Hl as [|line lines Hok Hl IH]; intros n w Hw; [exact Hw|].
  cbn [process_lines].
  destruct (process_line fuel get_allowed_tokens n line w) as [w1| |] eqn:E; [|exact Hw..].
  apply IH. now apply (process_line_one_line fuel n line w).
Qed.

(** The lines of the tool's own output file are its records. *)
Lemma readlines_own_records (fuel : nat) (rs : list string) :
  Forall (own_record fuel) rs -> readlines (fold_right String.append "" rs) = rs.
Proof.
  intros H. apply readlines_one_line.
  eapply Forall_impl; [exact H|]. apply own_record_one_line.
Qed.

Hypothesis idempotent : canonical_idempotent.
Hypothesis wellformed : canonical_wellformed.

(** Whatever the file processor writes is a record of that form. *)
Lemma process_line_own (fuel : nat) (n : Z) (line : string) (w w' : world) :
  line_ok line ->
  process_line fuel get_allowed_tokens n line w = Done w' ->
  Forall (own_record fuel) (outfile w) ->
  Forall (own_record fuel) (outfile w').
Proof.
  intros Hok Hp Hw. destruct (skipped line) eqn:Hs.
  { unfold process_line in Hp. rewrite Hs in Hp. now injection Hp as <-. }
  destruct (process_line_parts _ _ _ _ _ _ Hs Hp)
    as (smiles & rest & result & ok & Hsplit & Hvalid & ->).
  destruct ok; [|exact Hw]. apply Forall_app. split; [exact Hw|].
  constructor; [|constructor].
  destruct (is_valid_smiles_true _ _ _ _ Hvalid) as (mol & T & Hparse & Hcanon & Ht & Hsub).
  destruct (record_name_good line smiles rest n Hok Hsplit) as [Hsm Hname].
  destruct (wellformed smiles mol result Hsm Hparse Hcanon) as [Hne Hhash].
  destruct (idempotent smiles mol result Hparse Hcanon) as (m' & Hp' & Hc').
  eexists result, _. split; [reflexivity|]. split; [exact Hne|]. split; [exact Hhash|].
  split; [now exists m', T|exact Hname].
Qed.

Lemma process_lines_own (fuel : nat) (lines : list string) (n : Z) (w : world) :
  Forall line_ok lines ->
  Forall (own_record fuel) (outfile w) ->
  Forall (own_record fuel) (outfile (fst (process_lines fuel get_allowed_tokens lines n w))).
Proof.
  intros Hl. revert n w. induction Hl as [|line lines Hok Hl IH]; intros n w Hw; [exact Hw|].
  cbn [process_lines].
  destruct (process_line fuel get_allowed_tokens n line w) as [w1| |] eqn:E; [|exact Hw..].
  apply IH. now apply (process_line_own fuel n line w).
Qed.

End Rerun.

(** ** The counters and the output file *)

Section Invariant.
Import ReadFacts RecordFacts.
Context `{chem : Chem} `{rt : Runtime}.

(** C10: in the state reached after any number of lines of a file, the
    number of records written to the output file, which is the number of
    lines of the text written, is the valid counter, and the counts of the
    tally add up to the invalid counter; and an iteration on a line that is
    not skipped adds one to exactly one of the two counters, with one record
    written or one reason tallied. *)
Theorem counters_consistent (fuel : nat) (content : string) :
  (forall pre post : list string,
      readlines content = (pre ++ post)%list ->
      let w := fst (process_lines fuel get_allowed_tokens pre 1 initial_world) in
      consistent w
      /\ Z.of_nat (length (readlines (fold_right String.append "" (outfile w))))
         = valid_count w)
  /\ (forall (n : Z) (line : string) (w w' : world),
        skipped line = false ->
        process_line fuel get_allowed_tokens n line w = Done w' ->
        counted_once w w').
Proof.
  split.
  - intros pre post Hpre w.
    destruct (process_lines_consistent fuel get_allowed_tokens pre 1 initial_world
                initial_consistent) as [Hc _].
    fold w in Hc. split; [exact Hc|].
    rewrite readlines_one_line; [exact (proj1 Hc)|].
    apply process_lines_one_line; [|constructor].
    pose proof (readlines_ok content) as Hok. rewrite Hpre in Hok.
    now apply Forall_app in Hok as [Hok _].
  - intros n line w w'. apply process_line_counted.
Qed.

End Invariant.

Lemma counters_consistent_witness :
  (consistent (fst (@process_lines toy_chem toy_runtime 9 get_allowed_tokens
                      (readlines ("CCO ethanol" ++ NL ++ "not_a_molecule")) 1 initial_world))
   /\ Z.of_nat (length (readlines (fold_right String.append ""
         (outfile (fst (@process_lines toy_chem toy_runtime 9 get_allowed_tokens
                      (readlines ("CCO ethanol" ++ NL ++ "not_a_molecule")) 1
                      initial_world))))))
      = valid_count (fst (@process_lines toy_chem toy_runtime 9 get_allowed_tokens
                      (readlines ("CCO ethanol" ++ NL ++ "not_a_molecule")) 1 initial_world)))
  /\ counted_once initial_world (accept (output_record "CCO" "ethanol") initial_world).
Proof.
  destruct (@counters_consistent toy_chem toy_runtime 9
              ("CCO ethanol" ++ NL ++ "not_a_molecule")) as [Hpre Hstep].
  split.
  - apply (Hpre (readlines ("CCO ethanol" ++ NL ++ "not_a_molecule")) []).
    now rewrite List.app_nil_r.
  - apply (Hstep 1 "CCO ethanol"); [reflexivity|vm_compute; reflexivity].
Defined.

(** ** The whole run *)

Section Run.
Context `{chem : Chem} `{rt : Runtime}.

Lemma same_data_refl (w : world) : same_data w w.
Proof. now repeat split. Qed.

Lemma same_data_print (text : string) (w w' : world) :
  same_data w w' -> same_data w (print text w').
Proof. intros H. exact H. Qed.

Lemma same_data_prints (l : list (string * Z)) (w w' : world) :
  same_data w w' ->
  same_data w (fold_left (fun w x => print (reason_line x) w) l w').
Proof.
  revert w'. induction l as [|x l IH]; intros w' H; [exact H|].
  simpl. apply IH. now apply same_data_print.
Qed.

Lemma print_summary_data (w : world) : same_data w (fst (print_summary w)).
Proof.
  unfold print_summary. cbn [valid_count invalid_count invalid_reasons print].
  destruct (success_rate (valid_count w) (invalid_count w)) as [q| |];
    [|now repeat split..].
  destruct (invalid_reasons w) as [|x d]; [now repeat split|].
  cbn [fst]. apply same_data_prints. now repeat split.
Qed.

Lemma clean_outfile
  (fuel : nat) (input_file output_file : string) (report_file : option string)
  (content : string) :
  outfile (final (clean_smiles_file fuel input_file output_file report_file content))
  = outfile (fst (process_lines fuel get_allowed_tokens (readlines content) 1 initial_world)).
Proof.
  unfold clean_smiles_file.
  destruct (process_lines fuel get_allowed_tokens (readlines content) 1 initial_world)
    as [w st].
  destruct st as [u| |]; [|reflexivity..].
  pose proof (print_summary_data w) as (Ho & _).
  destruct (print_summary w) as [w1 st1]. cbn [fst] in Ho.
  destruct st1 as [u1| |]; [|exact Ho..].
  destruct (truthy report_file); [|exact Ho].
  destruct (write_report input_file output_file w1). exact Ho.
Qed.

Lemma success_rate_all_valid (v : Z) :
  0 < v -> exists q, success_rate v 0 = Done q /\ (q == 100)%Q.
Proof.
  intros Hv. unfold success_rate. rewrite Z.add_0_r.
  destruct (v =? 0) eqn:E; [lia|]. eexists. split; [reflexivity|].
  assert (~ inject_Z v == 0)%Q as Hnz.
  { unfold Qeq, inject_Z. simpl. lia. }
  field. exact Hnz.
Qed.

Lemma print_summary_ok (w : world) (q : Q) :
  success_rate (valid_count w) (invalid_count w) = Done q ->
  snd (print_summary w) = Done tt.
Proof.
  intros Hq. unfold print_summary. simpl. rewrite Hq.
  now destruct (invalid_reasons w).
Qed.

Lemma write_report_ok (input_file output_file : string) (w : world) (q : Q) :
  success_rate (valid_count w) (invalid_count w) = Done q ->
  snd (write_report input_file output_file w) = Done tt.
Proof.
  intros Hq. unfold write_report. rewrite Hq. now destruct (invalid_reasons w).
Qed.

(** A run that counted a record ends normally, with the data of the loop. *)
Lemma clean_counted
  (fuel : nat) (input_file output_file : string) (report_file : option string)
  (content : string) (w : world) (q : Q) :
  process_lines fuel get_allowed_tokens (readlines content) 1 initial_world = (w, Done tt) ->
  success_rate (valid_count w) (invalid_count w) = Done q ->
  status (clean_smiles_file fuel input_file output_file report_file content) = Done tt
  /\ same_data w (final (clean_smiles_file fuel input_file output_file report_file content)).
Proof.
  intros Hloop Hq. unfold clean_smiles_file. rewrite Hloop.
  pose proof (print_summary_data w) as Hdata.
  pose proof (print_summary_ok w q Hq) as Hst.
  destruct (print_summary w) as [w1 st1]. cbn [fst snd] in Hdata, Hst. subst st1.
  destruct (truthy report_file); [|now split].
  assert (success_rate (valid_count w1) (invalid_count w1) = Done q) as Hq1.
  { destruct Hdata as (_ & -> & -> & _). exact Hq. }
  pose proof (write_report_ok input_file output_file w1 q Hq1) as Hrep.
  destruct (write_report input_file output_file w1) as [f st]. cbn [snd] in Hrep.
  subst st. now split.
Qed.

End Run.

Section RunTwice.
Import ReadFacts.
Context `{chem : Chem} `{rt : Runtime}.

(** C7 (amended): with a canonical form that is idempotent and well formed
    (not empty, not starting with [#]), running the tool on the output file
    of a run that wrote at least one record ends normally, writes the same
    records, so that the output file is identical to the input, accepts
    every record and rejects none: the success rate is 100. *)
Theorem rerun_on_own_output
  (fuel : nat) (in1 out1 : string) (rep1 : option string) (content : string)
  (in2 out2 : string) (rep2 : option string) :
  canonical_idempotent ->
  canonical_wellformed ->
  let r1 := clean_smiles_file fuel in1 out1 rep1 content in
  let r2 := clean_smiles_file fuel in2 out2 rep2 (output_text r1) in
  outfile (final r1) <> [] ->
  status r2 = Done tt
  /\ outfile (final r2) = outfile (final r1)
  /\ output_text r2 = output_text r1
  /\ valid_count (final r2) = Z.of_nat (length (outfile (final r1)))
  /\ invalid_count (final r2) = 0
  /\ exists q, success_rate (valid_count (final r2)) (invalid_count (final r2)) = Done q
               /\ (q == 100)%Q.
Proof.
  intros Hidem Hwf r1 r2 Hne.
  assert (Forall (own_record fuel) (outfile (final r1))) as Hown.
  { subst r1. rewrite clean_outfile.
    apply (process_lines_own Hidem Hwf); [apply readlines_ok|constructor]. }
  pose proof (readlines_own_records fuel _ Hown) as Hread.
  destruct (process_own_records fuel (outfile (final r1)) 1 initial_world Hown)
    as (w2 & Hloop & Ho & Hv & Hi & Hd).
  simpl in Ho, Hv, Hi, Hd.
  assert (0 < valid_count w2) as Hpos.
  { rewrite Hv. destruct (outfile (final r1)); [congruence|simpl; lia]. }
  destruct (success_rate_all_valid (valid_count w2) Hpos) as (q & Hq & H100).
  rewrite <- Hi in Hq. rewrite <- Hread in Hloop.
  destruct (clean_counted fuel in2 out2 rep2 (output_text r1) w2 q Hloop Hq)
    as (Hst & Ho2 & Hv2 & Hi2 & _).
  fold r2 in Hst, Ho2, Hv2, Hi2.
  assert (outfile (final r2) = outfile (final r1)) as Hsame by congruence.
  split; [exact Hst|]. split; [exact Hsame|].
  split; [unfold output_text; now rewrite Hsame|].
  split; [rewrite Hv2, Hv; lia|]. split; [congruence|].
  exists q. rewrite Hv2, Hi2. now split.
Qed.

End RunTwice.

Lemma toy_idempotent : @canonical_idempotent toy_chem.
Proof.
  intros s m c. simpl. unfold toy_parse.
  destruct (PyFmt.has_char "_" s || PyFmt.has_char " " s || PyStr.startswith s "#") eqn:E;
    [discriminate|].
  intros [= <-] [= <-]. exists s. now rewrite E.
Qed.

Lemma toy_wellformed : @canonical_wellformed toy_chem.
Proof.
  intros s m c Hs. simpl. unfold toy_parse.
  destruct (PyFmt.has_char "_" s || PyFmt.has_char " " s || PyStr.startswith s "#") eqn:E;
    [discriminate|].
  intros [= <-] [= <-]. split; [exact Hs|].
  apply orb_false_elim in E as [_ E]. exact E.
Qed.

(** C7: a run that accepts nothing leaves an empty output file, and the run
    on that file fails with the division by zero instead of reporting a
    success rate. *)
Lemma rerun_on_empty_output :
  status (@clean_smiles_file toy_chem toy_runtime 20 "in.smi" "out.smi" None
            ("not_a_molecule" ++ NL)) = Done tt
  /\ output_text (@clean_smiles_file toy_chem toy_runtime 20 "in.smi" "out.smi" None
                    ("not_a_molecule" ++ NL)) = ""
  /\ status (@clean_smiles_file toy_chem toy_runtime 20 "out.smi" "again.smi" None "")
     = Raised ZeroDivisionError.
Proof. repeat split. Qed.

Lemma rerun_on_own_output_witness :
  output_text
    (@clean_smiles_file toy_chem toy_runtime 20 "out.smi" "again.smi" None
       (output_text
          (@clean_smiles_file toy_chem toy_runtime 20 "in.smi" "out.smi" None
             ("CCO ethanol" ++ NL ++ "not_a_molecule" ++ NL ++ "  c1ccccc1" ++ NL))))
  = output_text
      (@clean_smiles_file toy_chem toy_runtime 20 "in.smi" "out.smi" None
         ("CCO ethanol" ++ NL ++ "not_a_molecule" ++ NL ++ "  c1ccccc1" ++ NL)).
Proof.
  assert (outfile (final (@clean_smiles_file toy_chem toy_runtime 20 "in.smi" "out.smi" None
            ("CCO ethanol" ++ NL ++ "not_a_molecule" ++ NL ++ "  c1ccccc1" ++ NL))) <> [])
    as Hne by (vm_compute; discriminate).
  destruct (@rerun_on_own_output toy_chem toy_runtime 20 "in.smi" "out.smi" None
              ("CCO ethanol" ++ NL ++ "not_a_molecule" ++ NL ++ "  c1ccccc1" ++ NL)
              "out.smi" "again.smi" None toy_idempotent toy_wellformed Hne)
    as (_ & _ & Htext & _).
  exact Htext.
Defined.

(** * Further properties *)

(** ** The tokenizer: termination *)

Section Termination.
Import PyStr PyStrFacts CoverFacts.

Lemma closed_brackets_at (s : string) (i : Z) :
  closed_brackets s = true -> 0 <= i -> unclosed_at s i = false.
Proof.
  intros Hc Hi. unfold unclosed_at.
  destruct (index s i) as [c|] eqn:E; [|reflexivity].
  pose proof (index_lt s i c Hi E) as Hlt. unfold len in Hlt.
  unfold closed_brackets in Hc. rewrite forallb_forall in Hc.
  specialize (Hc (Z.to_nat i)). rewrite Z2Nat.id in Hc by lia.
  unfold unclosed_at in Hc. rewrite E in Hc.
  apply negb_true_iff, Hc, in_seq. lia.
Qed.

Lemma not_closed_brackets (s : string) :
  closed_brackets s = false ->
  exists p, 0 <= p /\ index s p = Some "["%char /\ find s "]" p = -1.
Proof.
  unfold closed_brackets. intros H.
  assert (exists k, negb (unclosed_at s (Z.of_nat k)) = false) as [k Hk].
  { induction (seq 0 (String.length s)) as [|k l IH]; [discriminate|].
    simpl in H. apply andb_false_iff in H as [H|H]; [now exists k|now apply IH]. }
  apply negb_false_iff in Hk. unfold unclosed_at in Hk.
  destruct (index s (Z.of_nat k)) as [c|] eqn:E; [|discriminate].
  apply andb_prop in Hk as [Hc Hf]. apply Ascii.eqb_eq in Hc. subst c.
  exists (Z.of_nat k). repeat split; [lia|exact E|lia].
Qed.

(** With its brackets closed, an iteration moves forward. *)
Lemma tokenize_step_advances (s : string) (i : Z) :
  closed_brackets s = true -> 0 <= i < len s ->
  exists i' tok, tokenize_step s i = Done (i', tok) /\ i < i' <= len s.
Proof.
  intros Hc Hi. destruct (index_some s i Hi) as [c Hx].
  pose proof (closed_brackets_at s i Hc ltac:(lia)) as Hu.
  unfold unclosed_at in Hu. unfold tokenize_step. rewrite Hx in *.
  destruct (Ascii.eqb c "[").
  { simpl in Hu. apply Z.eqb_neq in Hu. eexists _, _. split; [reflexivity|].
    destruct (find_found s "]"%char i ltac:(lia) Hu). lia. }
  destruct (Ascii.eqb c "%"); [|eexists _, _; split; [reflexivity|lia]].
  destruct (i + 2 <? len s) eqn:E; simpl; [|eexists _, _; split; [reflexivity|lia]].
  destruct (isdigit (slice s (i + 1) (i + 3)));
    eexists _, _; (split; [reflexivity|lia]).
Qed.

Lemma tokenize_loop_terminates (s : string) (fuel : nat) (i : Z) (acc : gset string) :
  closed_brackets s = true -> 0 <= i <= len s -> len s - i < Z.of_nat fuel ->
  exists T, tokenize_loop fuel s i acc = Done T.
Proof.
  intros Hc. revert i acc. induction fuel as [|fuel IH]; intros i acc Hi Hf; [lia|].
  simpl. destruct (i <? len s) eqn:E; [|now exists acc].
  destruct (tokenize_step_advances s i Hc ltac:(lia)) as (i' & tok & -> & Hi').
  simpl. apply IH; lia.
Qed.

Lemma tokenize_loop_no_raise (s : string) (fuel : nat) (i : Z) (acc : gset string) (e : exn) :
  0 <= i -> tokenize_loop fuel s i acc <> Raised e.
Proof.
  revert i acc. induction fuel as [|fuel IH]; intros i acc Hi; simpl; [discriminate|].
  destruct (i <? len s) eqn:E; [|discriminate].
  destruct (tokenize_step_covers s i ltac:(lia)) as (i' & tok & -> & Hi' & _).
  simpl. now apply IH.
Qed.

(** X1: on a text whose opening brackets are all closed the tokenizer
    returns a token set, with the length of the text plus one as fuel; on
    any other text it returns with no amount of fuel. *)
Theorem tokenize_terminates_iff (s : string) :
  (closed_brackets s = true ->
   exists T, tokenize_smiles (S (String.length s)) s = Done T)
  /\ ((exists fuel T, tokenize_smiles fuel s = Done T) -> closed_brackets s = true).
Proof.
  split.
  - intros Hc. apply (tokenize_loop_terminates s); [exact Hc|unfold len; lia..].
  - intros (fuel & T & HT). destruct (closed_brackets s) eqn:Hc; [reflexivity|].
    destruct (not_closed_brackets s Hc) as (p & Hp & Hb & Hu).
    unfold tokenize_smiles in HT.
    rewrite (loop_never_ends s p Hp Hb Hu fuel 0 ∅ ltac:(lia)) in HT. discriminate.
Qed.

(** X2: the tokenizer never raises: the index of line 26 is always in
    range. *)
Theorem tokenize_never_raises (fuel : nat) (s : string) (e : exn) :
  tokenize_smiles fuel s <> Raised e.
Proof. apply tokenize_loop_no_raise. lia. Qed.

End Termination.

Lemma tokenize_terminates_iff_witness :
  exists T, tokenize_smiles 9 "C[nH]%10" = Done T.
Proof.
  apply (proj1 (tokenize_terminates_iff "C[nH]%10")). reflexivity.
Defined.

(** ** The tokenizer: what a token is *)

Module TokenFacts.
Import PyStr PyStrFacts StrFacts CoverFacts.

Lemma take_drop (s : string) (n : nat) : s = take n s ++ drop n s.
Proof.
  revert s. induction n as [|n IH]; intros [|c s]; simpl; try reflexivity.
  rewrite app_cons. f_equal. apply IH.
Qed.

Lemma slice_contains (s : string) (a b : Z) : contains (slice s a b) s.
Proof.
  unfold slice.
  set (lo := Z.to_nat (bound (len s) a)).
  set (m := Z.to_nat (bound (len s) b - bound (len s) a)).
  exists (take lo s), (drop m (drop lo s)).
  rewrite <- (take_drop (drop lo s) m). apply take_drop.
Qed.

(** The text from position [i] on, when [i] is inside it. *)
Lemma drop_index (s : string) (i : Z) (c : ascii) :
  0 <= i -> index s i = Some c -> exists r, drop (Z.to_nat i) s = String c r.
Proof.
  intros Hi Hc. rewrite index_get in Hc by lia.
  destruct (i <? len s); [|discriminate].
  pose proof (get_drop s (Z.to_nat i) 0) as G. rewrite Nat.add_0_r, Hc in G.
  destruct (drop (Z.to_nat i) s) as [|d r]; [discriminate|].
  simpl in G. injection G as ->. now exists r.
Qed.

Lemma slice_take (s : string) (i : Z) (n : nat) :
  0 <= i -> i + Z.of_nat n <= len s ->
  slice s i (i + Z.of_nat n) = take n (drop (Z.to_nat i) s).
Proof.
  intros Hi Hn. unfold slice. rewrite !bound_pos by lia.
  replace (Z.min i (len s)) with i by lia.
  replace (Z.min (i + Z.of_nat n) (len s)) with (i + Z.of_nat n) by lia.
  f_equal. lia.
Qed.

Lemma slice_one (s : string) (i : Z) (c : ascii) :
  0 <= i -> index s i = Some c -> slice s i (i + 1) = String c EmptyString.
Proof.
  intros Hi Hc. pose proof (index_lt s i c Hi Hc) as Hlt.
  replace (i + 1) with (i + Z.of_nat 1) by lia.
  rewrite (slice_take s i 1) by lia.
  destruct (drop_index s i c Hi Hc) as [r ->]. reflexivity.
Qed.

Lemma first_pos_take (c : ascii) (u : string) (k : nat) :
  first_pos c u = Some k ->
  take (S k) u = take k u ++ String c EmptyString
  /\ PyFmt.has_char c (take k u) = false.
Proof.
  revert k. induction u as [|d u IH]; intros k; [discriminate|].
  cbn [first_pos]. destruct (Ascii.eqb d c) eqn:E.
  - intros [= <-]. apply Ascii.eqb_eq in E. subst d. now split.
  - destruct (first_pos c u) as [j|]; [|discriminate]. intros [= <-].
    destruct (IH j eq_refl) as [Ht Hh]. split.
    + change (take (S (S j)) (String d u)) with (String d (take (S j) u)).
      rewrite Ht. reflexivity.
    + simpl. now rewrite E, Hh.
Qed.

(** The token of a closed bracket starts at the bracket and ends at the
    first closing bracket after it. *)
Lemma bracket_slice (s : string) (i : Z) :
  0 <= i -> index s i = Some "["%char -> find s "]" i <> -1 ->
  bracket_token (slice s i (find s "]" i + 1)).
Proof.
  intros Hi Hb Hf. destruct (find_found s "]"%char i Hi Hf) as [Hr _].
  pose proof (index_lt s i _ Hi Hb) as Hlt.
  unfold find in *. rewrite bound_pos in * by lia.
  replace (Z.min i (len s)) with i in * by lia.
  destruct (drop_index s i _ Hi Hb) as [u Hu]. rewrite Hu in *.
  cbn [first_pos] in *. change (Ascii.eqb "[" "]") with false in *.
  destruct (first_pos "]" u) as [k|] eqn:Ek; [|congruence].
  replace (i + Z.of_nat (S k) + 1) with (i + Z.of_nat (S (S k))) by lia.
  rewrite slice_take by lia. rewrite Hu.
  destruct (first_pos_take _ _ _ Ek) as [Ht Hh].
  exists (take k u). split; [|exact Hh].
  change (take (S (S k)) (String "[" u)) with (String "["%char (take (S k) u)).
  now rewrite Ht.
Qed.

Lemma slice_three (s : string) (i : Z) :
  0 <= i -> i + 2 < len s ->
  exists c d1 d2,
    index s i = Some c /\ slice s i (i + 3) = String c (String d1 (String d2 EmptyString))
    /\ slice s (i + 1) (i + 3) = String d1 (String d2 EmptyString).
Proof.
  intros Hi Hlen.
  destruct (index_some s i ltac:(lia)) as [c Hc].
  destruct (slice_two s (i + 1) ltac:(lia) ltac:(lia)) as (d1 & d2 & H1 & H2 & Hs).
  replace (i + 1 + 2) with (i + 3) in Hs by lia.
  exists c, d1, d2. split; [exact Hc|]. split; [|exact Hs].
  replace (i + 3) with (i + Z.of_nat 3) by lia.
  rewrite (slice_take s i 3) by lia.
  destruct (drop_index s i c Hi Hc) as [r Hr]. rewrite Hr.
  pose proof (get_drop s (Z.to_nat i) 1) as G1.
  pose proof (get_drop s (Z.to_nat i) 2) as G2.
  rewrite Hr in G1, G2.
  rewrite index_get in H1, H2 by lia.
  destruct (i + 1 <? len s) eqn:E1; [|lia].
  destruct (i + 1 + 1 <? len s) eqn:E2; [|lia].
  replace (Z.to_nat i + 1)%nat with (Z.to_nat (i + 1)) in G1 by lia.
  replace (Z.to_nat i + 2)%nat with (Z.to_nat (i + 1 + 1)) in G2 by lia.
  rewrite H1 in G1. rewrite H2 in G2.
  destruct r as [|x [|y r]]; simpl in G1, G2; try discriminate.
  injection G1 as ->. injection G2 as ->. reflexivity.
Qed.

(** One iteration away from an unclosed bracket: the token is a piece of
    the text, of one of the three kinds. *)
Lemma tokenize_step_shape (s : string) (i : Z) :
  0 <= i < len s -> unclosed_at s i = false ->
  exists i' tok,
    tokenize_step s i = Done (i', tok) /\ 0 <= i'
    /\ token_shape tok /\ contains tok s.
Proof.
  intros Hi Hu. destruct (index_some s i Hi) as [c Hc].
  unfold unclosed_at in Hu. unfold tokenize_step. rewrite Hc in *.
  assert (Hone : Ascii.eqb c "[" = false ->
            token_shape (String c "") /\ contains (String c "") s).
  { intros E. split.
    - right. right. exists c. split; [reflexivity|].
      intros ->. discriminate E.
    - rewrite <- (slice_one s i c ltac:(lia) Hc). apply slice_contains. }
  destruct (Ascii.eqb c "[") eqn:Eb.
  { apply Ascii.eqb_eq in Eb. subst c. simpl in Hu. apply Z.eqb_neq in Hu.
    eexists _, _. split; [reflexivity|].
    pose proof (find_ge s "]"%char i ltac:(lia)).
    split; [lia|]. split; [|apply slice_contains].
    left. apply bracket_slice; [lia|exact Hc|exact Hu]. }
  specialize (Hone eq_refl).
  destruct (Ascii.eqb c "%") eqn:Ep;
    [|eexists _, _; split; [reflexivity|split; [lia|exact Hone]]].
  destruct (i + 2 <? len s) eqn:El; simpl;
    [|eexists _, _; split; [reflexivity|split; [lia|exact Hone]]].
  destruct (isdigit (slice s (i + 1) (i + 3))) eqn:Ed;
    [|eexists _, _; split; [reflexivity|split; [lia|exact Hone]]].
  eexists _, _. split; [reflexivity|]. split; [lia|].
  split; [|apply slice_contains].
  destruct (slice_three s i ltac:(lia) ltac:(lia)) as (c' & d1 & d2 & Hc' & Hs3 & Hs2).
  rewrite Hc in Hc'. injection Hc' as <-. apply Ascii.eqb_eq in Ep. subst c.
  rewrite Hs2 in Ed. simpl in Ed.
  apply andb_prop in Ed as [Ed1 Ed2]. apply andb_prop in Ed2 as [Ed2 _].
  right. left. exists d1, d2. now rewrite Hs3.
Qed.

Lemma tokenize_loop_shape (s : string) (fuel : nat) (i : Z) (acc T : gset string) :
  0 <= i ->
  tokenize_loop fuel s i acc = Done T ->
  (forall t, t ∈ acc -> token_shape t /\ contains t s) ->
  forall t, t ∈ T -> token_shape t /\ contains t s.
Proof.
  revert i acc. induction fuel as [|fuel IH]; intros i acc Hi Hloop Hacc;
    [discriminate|].
  destruct (unclosed_at s i) eqn:Hu.
  { exfalso. unfold unclosed_at in Hu.
    destruct (index s i) as [c|] eqn:Hc; [|discriminate].
    apply andb_prop in Hu as [Hb Hf]. apply Ascii.eqb_eq in Hb. subst c.
    apply Z.eqb_eq in Hf.
    rewrite (loop_never_ends s i Hi Hc Hf (S fuel) i acc ltac:(lia)) in Hloop.
    discriminate. }
  simpl in Hloop. destruct (i <? len s) eqn:E.
  - destruct (tokenize_step_shape s i ltac:(lia) Hu) as (i' & tok & Hs & Hi' & Hsh & Hin).
    rewrite Hs in Hloop. simpl in Hloop.
    apply (IH i' _ Hi' Hloop). intros t Ht.
    apply elem_of_union in Ht as [Ht|Ht]; [now apply Hacc|].
    apply elem_of_singleton in Ht. subst t. now split.
  - injection Hloop as <-. exact Hacc.
Qed.

End TokenFacts.


(** X4: every token that the tokenizer returns is a piece of the text and
    is of one of three kinds: an opening bracket with what follows up to the
    first closing bracket, a percent sign with two digits, or one character
    other than an opening bracket. *)
Theorem tokens_are_pieces (fuel : nat) (s : string) (T : gset string) :
  tokenize_smiles fuel s = Done T ->
  forall t, t ∈ T -> token_shape t /\ contains t s.
Proof.
  intros Ht. apply (TokenFacts.tokenize_loop_shape s fuel 0 ∅ T ltac:(lia) Ht).
  intros t Hin. set_solver.
Qed.


Lemma tokens_are_pieces_witness :
  token_shape "[nH]" /\ contains "[nH]" "c1cc[nH]c1".
Proof.
  assert (Ht : tokenize_smiles 11 "c1cc[nH]c1"
               = Done ({[ "c"; "1"; "[nH]" ]} : gset string))
    by (vm_compute; reflexivity).
  apply (tokens_are_pieces 11 "c1cc[nH]c1" _ Ht). set_solver.
Defined.

(** ** The validator: every way it can end *)

Section Verdict.
Context `{chem : Chem} `{rt : Runtime}.

(** X5: the validator never lets an exception out: what RDKit raises, when
    parsing or when writing the canonical text, comes back as invalid with
    the reason "Error: " and the message of the exception. *)
Theorem validator_catches
  (fuel : nat) (smiles : string) (allowed : gset string) (e : exn) :
  is_valid_smiles fuel smiles allowed <> Raised e
  /\ (MolFromSmiles smiles = Raised e ->
      is_valid_smiles fuel smiles allowed = Done (false, "Error: " ++ exn_msg e))
  /\ (forall mol, MolFromSmiles smiles = Done (Some mol) -> MolToSmiles mol = Raised e ->
      is_valid_smiles fuel smiles allowed = Done (false, "Error: " ++ exn_msg e)).
Proof.
  split; [|split].
  - unfold is_valid_smiles.
    destruct (MolFromSmiles smiles) as [[mol|]| |]; simpl; try discriminate.
    destruct (MolToSmiles mol) as [c| |]; simpl; try discriminate.
    destruct (tokenize_smiles fuel c) as [T|e'|]; simpl; try discriminate.
    destruct (bool_decide (T ∖ allowed = ∅)); discriminate.
  - intros Hp. unfold is_valid_smiles. now rewrite Hp.
  - intros mol Hp Hc. unfold is_valid_smiles. rewrite Hp. simpl. now rewrite Hc.
Qed.

(** X6: a verdict of valid carries the canonical text of the input, whose
    tokens are all allowed; a verdict of invalid carries one of three
    reasons: the parse failure, the unsupported tokens (a set that is not
    empty), or a caught exception. *)
Theorem validator_verdict
  (fuel : nat) (smiles : string) (allowed : gset string) (ok : bool) (result : string) :
  is_valid_smiles fuel smiles allowed = Done (ok, result) ->
  if ok then
    exists (mol : Mol) (T : gset string),
      MolFromSmiles smiles = Done (Some mol) /\ MolToSmiles mol = Done result
      /\ tokenize_smiles fuel result = Done T /\ T ⊆ allowed
  else
    result = "Invalid RDKit molecule"
    \/ (exists U : gset string, U ≠ ∅ /\ result = "Unsupported tokens: " ++ set_str U)
    \/ (exists e : exn, result = "Error: " ++ exn_msg e).
Proof.
  destruct ok; [apply is_valid_smiles_true|].
  unfold is_valid_smiles.
  destruct (MolFromSmiles smiles) as [[mol|]|e|]; simpl; try discriminate.
  - destruct (MolToSmiles mol) as [c|e|]; simpl; try discriminate.
    + destruct (tokenize_smiles fuel c) as [T|e|]; simpl; try discriminate.
      * destruct (bool_decide (T ∖ allowed = ∅)) eqn:E; simpl; [discriminate|].
        intros [= <-]. apply bool_decide_eq_false in E. right. left. eauto.
      * intros [= <-]. right. right. eauto.
    + intros [= <-]. right. right. eauto.
  - intros [= <-]. now left.
  - intros [= <-]. right. right. eauto.
Qed.

(** X7: allowing more tokens never turns a valid text into an invalid one. *)
Theorem validator_monotone
  (fuel : nat) (smiles : string) (allowed allowed' : gset string) (result : string) :
  allowed ⊆ allowed' ->
  is_valid_smiles fuel smiles allowed = Done (true, result) ->
  is_valid_smiles fuel smiles allowed' = Done (true, result).
Proof.
  intros Hsub Hv.
  destruct (is_valid_smiles_true _ _ _ _ Hv) as (mol & T & Hp & Hc & Ht & HT).
  rewrite (is_valid_smiles_parsed fuel smiles allowed' mol result T Hp Hc Ht).
  rewrite bool_decide_eq_true_2; [reflexivity|set_solver].
Qed.

End Verdict.

Lemma validator_catches_witness :
  @is_valid_smiles moody_chem toy_runtime 0 "C!" get_allowed_tokens
  = Done (false, "Error: Pre-condition Violation")
  /\ @is_valid_smiles moody_chem toy_runtime 0 "C?" get_allowed_tokens
     = Done (false, "Error: cannot write").
Proof.
  split.
  - apply (proj1 (proj2 (@validator_catches moody_chem toy_runtime 0 "C!"
                           get_allowed_tokens
                           (Exn "RuntimeError" "Pre-condition Violation")))).
    reflexivity.
  - apply (proj2 (proj2 (@validator_catches moody_chem toy_runtime 0 "C?"
                           get_allowed_tokens (Exn "ValueError" "cannot write")))
             "C?"); reflexivity.
Defined.

Lemma validator_verdict_witness :
  exists (mol : string) (T : gset string),
    @MolFromSmiles toy_chem "CCO" = Done (Some mol)
    /\ @MolToSmiles toy_chem mol = Done "CCO"
    /\ tokenize_smiles 4 "CCO" = Done T /\ T ⊆ get_allowed_tokens.
Proof.
  apply (@validator_verdict toy_chem toy_runtime 4 "CCO" get_allowed_tokens true "CCO").
  vm_compute. reflexivity.
Defined.

Lemma validator_monotone_witness :
  @is_valid_smiles toy_chem toy_runtime 5 "[Si]" ({[ "[Si]" ]} ∪ get_allowed_tokens)
  = Done (true, "[Si]").
Proof.
  apply (@validator_monotone toy_chem toy_runtime 5 "[Si]" {[ "[Si]" ]}
           ({[ "[Si]" ]} ∪ get_allowed_tokens) "[Si]").
  - set_solver.
  - vm_compute. reflexivity.
Defined.

(** ** The file processor: how the loop ends and what it counts *)

Section Loop.
Import PyStr StripFacts LineFacts.
Context `{chem : Chem} `{rt : Runtime}.






Lemma process_lines_count
  (fuel : nat) (allowed : gset string) (lines : list string) (n : Z) (w w' : world) :
  process_lines fuel allowed lines n w = (w', Done tt) ->
  valid_count w' + invalid_count w'
  = valid_count w + invalid_count w
    + Z.of_nat (length (List.filter (fun l => negb (skipped l)) lines)).
Proof.
  revert n w. induction lines as [|line rest IH]; intros n w.
  - simpl. intros [= <-]. lia.
  - cbn [process_lines].
    destruct (process_line fuel allowed n line w) as [w1| |] eqn:E; [|discriminate..].
    intros H. rewrite (IH _ _ H). cbn [List.filter].
    destruct (skipped line) eqn:Hs; cbn [negb].
    + unfold process_line in E. rewrite Hs in E. injection E as <-. lia.
    + destruct (process_line_counted _ _ _ _ _ _ Hs E)
        as [(-> & -> & _)|(-> & -> & _)]; simpl length; lia.
Qed.

(** X9: when the loop has gone through the lines, the two counters have
    grown together by the number of lines that are neither blank nor
    comments. *)
Theorem processed_count
  (fuel : nat) (allowed : gset string) (lines : list string) (n : Z) (w w' : world) :
  process_lines fuel allowed lines n w = (w', Done tt) ->
  valid_count w' + invalid_count w'
  = valid_count w + invalid_count w
    + Z.of_nat (length (List.filter (fun l => negb (skipped l)) lines)).
Proof. apply process_lines_count. Qed.

Lemma process_line_grows
  (fuel : nat) (allowed : gset string) (n : Z) (line : string) (w w' : world) :
  process_line fuel allowed n line w = Done w' ->
  outfile w `prefix_of` outfile w' /\ console w `prefix_of` console w'
  /\ valid_count w <= valid_count w' /\ invalid_count w <= invalid_count w'.
Proof.
  destruct (skipped line) eqn:Hs.
  - unfold process_line. rewrite Hs. intros [= <-]. repeat split; reflexivity.
  - intros H.
    destruct (process_line_record _ _ _ _ _ _ Hs H)
      as (smiles & name & result & ok & w1 & _ & Hw1 & ->).
    assert (outfile w `prefix_of` outfile w1 /\ console w `prefix_of` console w1
            /\ valid_count w <= valid_count w1 /\ invalid_count w <= invalid_count w1)
      as (Ho & Hc & Hv & Hi).
    { subst w1. destruct ok; simpl; repeat split; try reflexivity; try lia;
        now apply prefix_app_r. }
    destruct (n mod 1000 =? 0); simpl; repeat split; trivial.
    now apply prefix_app_r.
Qed.

(** X10: the loop only appends: after more lines of the file, the output
    file and the console start with what they held before, and neither
    counter has gone down. *)
Theorem loop_appends
  (fuel : nat) (allowed : gset string) (pre post : list string) (w : world) :
  let w1 := fst (process_lines fuel allowed pre 1 w) in
  let w2 := fst (process_lines fuel allowed (pre ++ post) 1 w) in
  outfile w1 `prefix_of` outfile w2 /\ console w1 `prefix_of` console w2
  /\ valid_count w1 <= valid_count w2 /\ invalid_count w1 <= invalid_count w2.
Proof.
  intros w1 w2. subst w2. rewrite process_lines_app. fold w1.
  destruct (process_lines fuel allowed pre 1 w) as [wa st] eqn:E.
  cbn [fst] in w1. subst w1.
  destruct st as [u| |]; [|repeat split; reflexivity..].
  generalize (1 + Z.of_nat (length pre)). clear E. revert wa.
  induction post as [|line rest IH]; intros wa n; [repeat split; reflexivity|].
  cbn [process_lines].
  destruct (process_line fuel allowed n line wa) as [wb| |] eqn:E;
    [|repeat split; reflexivity..].
  destruct (process_line_grows _ _ _ _ _ _ E) as (Ho & Hc & Hv & Hi).
  destruct (IH wb (n + 1)) as (Ho' & Hc' & Hv' & Hi').
  repeat split; [now transitivity (outfile wb)|now transitivity (console wb)|lia..].
Qed.

End Loop.

(** ** The file processor: what it writes and tallies *)

Section Output.
Import ReadFacts CoverFacts RecordFacts.
Context `{chem : Chem} `{rt : Runtime}.

Lemma process_line_filtered (fuel : nat) (n : Z) (line : string) (w w' : world) :
  line_ok line ->
  process_line fuel get_allowed_tokens n line w = Done w' ->
  Forall (filtered_record fuel) (outfile w) ->
  Forall (filtered_record fuel) (outfile w').
Proof.
  intros Hok Hp Hw. destruct (skipped line) eqn:Hs.
  { unfold process_line in Hp. rewrite Hs in Hp. now injection Hp as <-. }
  destruct (process_line_parts _ _ _ _ _ _ Hs Hp)
    as (smiles & rest & result & ok & Hsplit & Hvalid & ->).
  destruct ok; [|exact Hw]. apply Forall_app. split; [exact Hw|].
  constructor; [|constructor].
  destruct (is_valid_smiles_true _ _ _ _ Hvalid) as (mol & T & Hparse & Hcanon & Ht & Hsub).
  eexists smiles, mol, result, _, T. split; [reflexivity|].
  split; [exact Hparse|]. split; [exact Hcanon|]. split; [exact Ht|].
  split; [exact Hsub|]. split; [exact (allowed_text_nonspace fuel result T Ht Hsub)|].
  apply (record_name_good line smiles rest n Hok Hsplit).
Qed.

(** X11: every record of the output file is the canonical text of a text
    that parsed, then a tab, a name and a line feed; the canonical text has
    only allowed tokens and no white space, and the name has no white space
    around it and no line break. This holds however the run ends. *)
Theorem output_is_filtered
  (fuel : nat) (input_file output_file : string) (report_file : option string)
  (content : string) :
  Forall (filtered_record fuel)
    (outfile (final (clean_smiles_file fuel input_file output_file report_file content))).
Proof.
  rewrite clean_outfile. generalize 1 at 1.
  assert (Forall (filtered_record fuel) (outfile initial_world)) as Hw by constructor.
  revert Hw. generalize initial_world.
  pose proof (readlines_ok content) as Hok.
  induction Hok as [|line lines Hl Hok IH]; intros w Hw n; [exact Hw|].
  cbn [process_lines].
  destruct (process_line fuel get_allowed_tokens n line w) as [w1| |] eqn:E; [|exact Hw..].
  apply IH. now apply (process_line_filtered fuel n line w).
Qed.

Lemma dict_get_set (d : list (string * Z)) (k : string) (v default : Z) :
  dict_get (dict_set d k v) k default = v.
Proof.
  induction d as [|[k' v'] d IH]; simpl.
  - now rewrite String.eqb_refl.
  - destruct (String.eqb k' k) eqn:E; simpl; rewrite E; [reflexivity|exact IH].
Qed.

Lemma dict_get_set_other (d : list (string * Z)) (k k' : string) (v default : Z) :
  k' <> k -> dict_get (dict_set d k v) k' default = dict_get d k' default.
Proof.
  intros Hne. induction d as [|[k0 v0] d IH]; simpl.
  - destruct (String.eqb k k') eqn:E; [|reflexivity].
    apply String.eqb_eq in E. congruence.
  - destruct (String.eqb k0 k) eqn:E; simpl; [|now rewrite IH].
    apply String.eqb_eq in E. subst k0.
    destruct (String.eqb k k') eqn:E'; [|reflexivity].
    apply String.eqb_eq in E'. congruence.
Qed.

Lemma dict_set_keys (d : list (string * Z)) (k : string) (v : Z) :
  map fst (dict_set d k v)
  = if bool_decide (k ∈ map fst d) then map fst d else (map fst d ++ [k])%list.
Proof.
  induction d as [|[k' v'] d IH]; [reflexivity|]. simpl.
  destruct (String.eqb k' k) eqn:E.
  - apply String.eqb_eq in E. subst k'. simpl.
    rewrite bool_decide_eq_true_2; [reflexivity|left].
  - apply String.eqb_neq in E. simpl. rewrite IH.
    destruct (bool_decide (k ∈ map fst d)) eqn:Ed.
    + apply bool_decide_eq_true in Ed.
      rewrite bool_decide_eq_true_2; [reflexivity|now right].
    + apply bool_decide_eq_false in Ed.
      rewrite bool_decide_eq_false_2; [reflexivity|].
      intros Hin. apply elem_of_cons in Hin as [->|Hin]; [congruence|contradiction].
Qed.

(** X12: tallying a reason adds one to its count, counted from 0 when the
    reason is new, leaves the count of every other reason as it was, keeps
    the reasons in the order in which they first occurred and keeps each
    reason once. *)
Theorem reject_tally (reason : string) (w : world) :
  let d := invalid_reasons w in
  let d' := invalid_reasons (reject reason w) in
  dict_get d' reason 0 = dict_get d reason 0 + 1
  /\ (forall other, other <> reason -> dict_get d' other 0 = dict_get d other 0)
  /\ map fst d' = (if bool_decide (reason ∈ map fst d) then map fst d
                   else (map fst d ++ [reason])%list)
  /\ (NoDup (map fst d) -> NoDup (map fst d')).
Proof.
  intros d d'. subst d'. cbn [invalid_reasons reject]. fold d.
  split; [apply dict_get_set|]. split; [intros other Hne; now apply dict_get_set_other|].
  split; [apply dict_set_keys|].
  intros Hnd. rewrite dict_set_keys.
  destruct (bool_decide (reason ∈ map fst d)) eqn:E; [exact Hnd|].
  apply bool_decide_eq_false in E. apply NoDup_app. split; [exact Hnd|].
  split; [|apply NoDup_singleton].
  intros x Hx Hx'. apply list_elem_of_singleton in Hx'. now subst x.
Qed.

End Output.

Section Tally.
Context `{chem : Chem} `{rt : Runtime}.

Lemma dict_get_ok (d : list (string * Z)) (k : string) :
  Forall (fun x => 1 <= snd x) d -> 0 <= dict_get d k 0.
Proof.
  induction 1 as [|[k' v'] d Hx Hd IH]; simpl; [lia|].
  destruct (String.eqb k' k); [simpl in Hx; lia|exact IH].
Qed.

Lemma dict_set_ok (d : list (string * Z)) (k : string) (v : Z) :
  1 <= v -> Forall (fun x => 1 <= snd x) d ->
  Forall (fun x => 1 <= snd x) (dict_set d k v).
Proof.
  intros Hv. induction 1 as [|[k' v'] d Hx Hd IH]; simpl; [now repeat constructor|].
  destruct (String.eqb k' k); constructor; trivial.
Qed.

Lemma reject_tally_ok (reason : string) (w : world) :
  tally_ok (invalid_reasons w) -> tally_ok (invalid_reasons (reject reason w)).
Proof.
  intros [Hnd Hall]. cbn [invalid_reasons reject]. split.
  - rewrite dict_set_keys.
    destruct (bool_decide (reason ∈ map fst (invalid_reasons w))) eqn:E; [exact Hnd|].
    apply bool_decide_eq_false in E. apply NoDup_app. split; [exact Hnd|].
    split; [|apply NoDup_singleton].
    intros x Hx Hx'. apply list_elem_of_singleton in Hx'. now subst x.
  - apply dict_set_ok; [|exact Hall].
    pose proof (dict_get_ok (invalid_reasons w) reason Hall). lia.
Qed.

Lemma process_lines_tally_ok
  (fuel : nat) (allowed : gset string) (lines : list string) (n : Z) (w : world) :
  tally_ok (invalid_reasons w) ->
  tally_ok (invalid_reasons (fst (process_lines fuel allowed lines n w))).
Proof.
  revert n w. induction lines as [|line rest IH]; intros n w Hw; [exact Hw|].
  cbn [process_lines].
  destruct (process_line fuel allowed n line w) as [w1| |] eqn:E; [|exact Hw..].
  apply IH. destruct (skipped line) eqn:Hs.
  - unfold process_line in E. rewrite Hs in E. now injection E as <-.
  - destruct (process_line_record _ _ _ _ _ _ Hs E)
      as (smiles & name & result & ok & w0 & _ & Hw0 & ->).
    assert (tally_ok (invalid_reasons w0)) as H0.
    { subst w0. destruct ok; [exact Hw|now apply reject_tally_ok]. }
    now destruct (n mod 1000 =? 0).
Qed.

Lemma tally_length (d : list (string * Z)) :
  Forall (fun x => 1 <= snd x) d -> Z.of_nat (length d) <= tally_total d.
Proof.
  induction 1 as [|x d Hx Hd IH]; [reflexivity|].
  unfold tally_total in *. cbn [length fold_right]. rewrite Nat2Z.inj_succ. lia.
Qed.

(** The data of a run are the data of its loop. *)
Lemma clean_same_data
  (fuel : nat) (input_file output_file : string) (report_file : option string)
  (content : string) :
  same_data (fst (process_lines fuel get_allowed_tokens (readlines content) 1 initial_world))
    (final (clean_smiles_file fuel input_file output_file report_file content)).
Proof.
  unfold clean_smiles_file.
  destruct (process_lines fuel get_allowed_tokens (readlines content) 1 initial_world)
    as [w st].
  destruct st as [u| |]; [|apply same_data_refl..].
  pose proof (print_summary_data w) as Hd.
  destruct (print_summary w) as [w1 st1]. cbn [fst] in *.
  destruct st1 as [u1| |]; [|exact Hd..].
  destruct (truthy report_file); [|exact Hd].
  destruct (write_report input_file output_file w1). exact Hd.
Qed.

(** X13: in the tally that a run leaves, no reason occurs twice and every
    count is at least 1, so that there are at most as many reasons as
    rejected records. *)
Theorem tally_of_run
  (fuel : nat) (input_file output_file : string) (report_file : option string)
  (content : string) :
  let w := final (clean_smiles_file fuel input_file output_file report_file content) in
  tally_ok (invalid_reasons w)
  /\ Z.of_nat (length (invalid_reasons w)) <= invalid_count w.
Proof.
  intros w.
  destruct (clean_same_data fuel input_file output_file report_file content)
    as (_ & _ & Hi & Hd).
  fold w in Hi, Hd. rewrite Hi, Hd.
  assert (tally_ok (invalid_reasons initial_world)) as H0
    by (split; constructor).
  pose proof (process_lines_tally_ok fuel get_allowed_tokens (readlines content) 1
                initial_world H0) as Hok.
  destruct (process_lines_consistent fuel get_allowed_tokens (readlines content) 1
              initial_world initial_consistent) as [[_ Hsum] _].
  split; [exact Hok|]. rewrite <- Hsum. apply tally_length, Hok.
Qed.

End Tally.

(** ** The reporter *)

Section Reporter.
Context `{chem : Chem} `{rt : Runtime}.


Lemma insert_by_count_perm (x : string * Z) (l : list (string * Z)) :
  insert_by_count x l ≡ₚ x :: l.
Proof.
  induction l as [|y r IH]; simpl; [reflexivity|].
  destruct (snd y >? snd x); [|reflexivity].
  rewrite IH. apply Permutation_swap.
Qed.

Lemma insert_by_count_sorted (x : string * Z) (l : list (string * Z)) :
  StronglySorted (fun a b => snd b <= snd a) l ->
  StronglySorted (fun a b => snd b <= snd a) (insert_by_count x l).
Proof.
  induction 1 as [|y r Hr IH Hy]; simpl; [repeat constructor|].
  destruct (snd y >? snd x) eqn:E.
  - constructor; [exact IH|]. rewrite insert_by_count_perm.
    constructor; [lia|exact Hy].
  - constructor; [now constructor|]. constructor; [lia|].
    eapply Forall_impl; [exact Hy|]. simpl. intros z Hz. lia.
Qed.

Lemma insert_by_count_filter (c : Z) (x : string * Z) (l : list (string * Z)) :
  List.filter (fun y => snd y =? c) (insert_by_count x l)
  = List.filter (fun y => snd y =? c) (x :: l).
Proof.
  induction l as [|y r IH]; [reflexivity|]. cbn [insert_by_count].
  destruct (snd y >? snd x) eqn:E; [|reflexivity].
  cbn [List.filter] in *. rewrite IH.
  destruct (snd x =? c) eqn:Ex; [|reflexivity].
  destruct (snd y =? c) eqn:Ey; [lia|reflexivity].
Qed.

(** X15: the reasons are listed by decreasing count, each entry of the
    tally once, and reasons with equal counts stay in the order of the
    tally, that is, the order in which they first occurred. *)
Theorem sorted_by_count_spec (d : list (string * Z)) :
  sorted_by_count d ≡ₚ d
  /\ StronglySorted (fun a b => snd b <= snd a) (sorted_by_count d)
  /\ forall c, List.filter (fun y => snd y =? c) (sorted_by_count d)
               = List.filter (fun y => snd y =? c) d.
Proof.
  unfold sorted_by_count. induction d as [|x d (Hp & Hs & Hf)]; simpl.
  - repeat split; constructor.
  - split; [now rewrite insert_by_count_perm, Hp|].
    split; [now apply insert_by_count_sorted|].
    intros c. rewrite insert_by_count_filter. cbn [List.filter]. now rewrite Hf.
Qed.



End Reporter.

(** ** The command line *)

Section Main.
Context `{chem : Chem} `{rt : Runtime}.


End Main.

(** ** Characters that the vocabulary cannot cover *)

Module VocabularyFacts.
Import PyStr PyStrFacts StrFacts CoverFacts TokenFacts.




(** A token of two characters can only be the empty bracket group. *)
Lemma token_of_two (t : string) (a b : ascii) :
  token_shape t -> t = String a (String b EmptyString) -> a = "["%char /\ b = "]"%char.
Proof.
  intros [(body & -> & _)|[(d1 & d2 & -> & _)|(c & -> & _)]]; try discriminate.
  destruct body as [|x [|y body]]; try discriminate.
  now intros [= <- <-].
Qed.

End VocabularyFacts.

(** X18: the tokenizer never returns the tokens Cl and Br of the allowed
    set: outside brackets it cuts the text into single characters. *)
Theorem two_letter_tokens_unreachable (fuel : nat) (s : string) (T : gset string) :
  tokenize_smiles fuel s = Done T -> ("Cl" ∉ T) /\ ("Br" ∉ T).
Proof.
  intros Ht.
  pose proof (TokenFacts.tokenize_loop_shape s fuel 0 ∅ T ltac:(lia) Ht) as Hshape.
  assert (forall t, t ∈ T -> token_shape t) as Hsh.
  { intros t Hin. apply Hshape; [|exact Hin]. intros t' Hin'. set_solver. }
  split; intros Hin; apply Hsh in Hin;
    destruct (VocabularyFacts.token_of_two _ _ _ Hin eq_refl); discriminate.
Qed.

Section Unsupported.
Import PyStr StrFacts CoverFacts TokenFacts VocabularyFacts.
Context `{chem : Chem} `{rt : Runtime}.


End Unsupported.

(** ** The name of a record *)

Section Names.
Context `{chem : Chem} `{rt : Runtime}.

(** X20: the record written for a valid line holds the canonical text and
    the rest of the line as its name; a line with nothing after the SMILES
    is named mol_N, with N the number of the line in the file, blank lines
    and comments counted. *)
Theorem record_of_line
  (fuel : nat) (pre : list string) (line smiles : string) (rest : list string)
  (c : string) (w : world) :
  process_lines fuel get_allowed_tokens pre 1 initial_world = (w, Done tt) ->
  skipped line = false ->
  PyStr.split1 (PyStr.strip line) = smiles :: rest ->
  is_valid_smiles fuel smiles get_allowed_tokens = Done (true, c) ->
  outfile (fst (process_lines fuel get_allowed_tokens (pre ++ [line]) 1 initial_world))
  = (outfile w
     ++ [output_record c
           match rest with
           | name :: _ => name
           | [] => "mol_" ++ PyFmt.str_int (Z.of_nat (length pre) + 1)
           end])%list.
Proof.
  intros Hpre Hs Hsplit Hvalid.
  rewrite process_lines_app, Hpre. cbn [process_lines].
  unfold process_line. rewrite Hs, Hsplit, Hvalid. cbn [bind].
  rewrite (Z.add_comm 1).
  now destruct ((Z.of_nat (length pre) + 1) mod 1000 =? 0).
Qed.

End Names.

Lemma processed_count_witness :
  valid_count (fst (@process_lines toy_chem toy_runtime 5 get_allowed_tokens
                      ["CCO"; "# note"; ""; "not_a_molecule"] 1 initial_world))
  + invalid_count (fst (@process_lines toy_chem toy_runtime 5 get_allowed_tokens
                          ["CCO"; "# note"; ""; "not_a_molecule"] 1 initial_world))
  = 0 + 0 + 2.
Proof.
  apply (@processed_count toy_chem toy_runtime 5 get_allowed_tokens
           ["CCO"; "# note"; ""; "not_a_molecule"] 1 initial_world).
  vm_compute. reflexivity.
Defined.

Lemma reject_tally_witness :
  dict_get (invalid_reasons (reject "b" (reject "a" (reject "b" initial_world)))) "a" 0
  = dict_get (invalid_reasons (reject "a" (reject "b" initial_world))) "a" 0
  /\ NoDup (map fst (invalid_reasons (reject "b" (reject "a" (reject "b" initial_world))))).
Proof.
  destruct (reject_tally "b" (reject "a" (reject "b" initial_world)))
    as (_ & Hother & _ & Hnd).
  split.
  - apply Hother. discriminate.
  - apply Hnd. vm_compute. repeat constructor; set_solver.
Defined.





Lemma two_letter_tokens_unreachable_witness :
  ("Cl" ∉ ({[ "C"; "l" ]} : gset string)) /\ ("Br" ∉ ({[ "C"; "l" ]} : gset string)).
Proof.
  assert (Ht : tokenize_smiles 4 "CCl" = Done ({[ "C"; "l" ]} : gset string))
    by (vm_compute; reflexivity).
  apply (two_letter_tokens_unreachable 4 "CCl" _ Ht).
Defined.

Lemma record_of_line_witness :
  outfile (fst (@process_lines toy_chem toy_runtime 5 get_allowed_tokens
                  (["# header"; ""] ++ ["CCO"]) 1 initial_world))
  = (outfile initial_world ++ [output_record "CCO" ("mol_" ++ PyFmt.str_int (2 + 1))])%list.
Proof.
  apply (@record_of_line toy_chem toy_runtime 5 ["# header"; ""] "CCO" "CCO" [] "CCO"
           initial_world); reflexivity.
Defined.
